(** * BoxRFID: the reader session, the lazy session factory, the auto-detect
    loop and the request coordinator, embedded from [nfc-service.js] and the
    two process entry points (the lazy-loading one and the eager one).

    Layout: (1) the JavaScript values and coercions the sources rely on,
    (2) a resumption monad for [async] functions, (3) [nfc-service.js],
    (4) the lazy entry point, (5) the eager entry point,
    (6) the event loop, (7) the vocabulary of the properties, (8) the
    properties, (9) further properties of the code. *)

From Stdlib Require Import ZArith Lia Ascii String DecimalString.
From stdpp Require Import base list strings.

Local Open Scope string_scope.
Local Open Scope list_scope.
Local Open Scope Z_scope.

(* ===================================================================== *)
(** ** 1. JavaScript values *)
(* ===================================================================== *)

Module Js.

(** A JS number that reaches this code: [NaN] or an integer-valued double
    ([parseInt] produces nothing else that is finite).  [JInt z] stands for
    the double of value [z]; the embedding is exact on the safe integers,
    [safe_integer] below. *)
Inductive JsNumber := JNaN | JInt (z : Z).

(** The object [readTag] resolves with:
    [{ material, color, manufacturer, rawData }]. *)
Record TagRecord := mkTag {
  material : Z;
  color : Z;
  manufacturer : Z;
  rawData : list Z
}.

(** Values that are thrown, rejected with, sent in IPC payloads or stored in
    result objects.  [VError name message] is an [Error] instance. *)
Inductive JsVal :=
| VUndefined
| VNull
| VBool (b : bool)
| VNum (n : JsNumber)
| VStr (s : string)
| VError (name message : string)
| VTag (t : TagRecord).

(** An object literal, keys in the order they are written. *)
Definition JsObject := list (string * JsVal).

Definition keys (o : JsObject) : list string := map fst o.

Fixpoint field (k : string) (o : JsObject) : option JsVal :=
  match o with
  | [] => None
  | (k', v) :: o' => if String.eqb k k' then Some v else field k o'
  end.

(** ToBoolean. *)
Definition truthy (v : JsVal) : bool :=
  match v with
  | VUndefined | VNull => false
  | VBool b => b
  | VNum JNaN => false
  | VNum (JInt z) => negb (z =? 0)
  | VStr s => negb (String.eqb s "")
  | VError _ _ | VTag _ => true
  end.

Definition string_of_Z (z : Z) : string := NilZero.string_of_int (Z.to_int z).

(** [String(v)].  For an [Error] this is [Error.prototype.toString]. *)
Definition toString (v : JsVal) : string :=
  match v with
  | VUndefined => "undefined"
  | VNull => "null"
  | VBool true => "true"
  | VBool false => "false"
  | VNum JNaN => "NaN"
  | VNum (JInt z) => string_of_Z z
  | VStr s => s
  | VError n m =>
      if String.eqb n "" then m
      else if String.eqb m "" then n
      else n +:+ ": " +:+ m
  | VTag _ => "[object Object]"
  end.

(** [v.message] on a value that is neither [null] nor [undefined]; [None]
    stands for [undefined].  Only [Error] objects carry the property. *)
Definition message_prop (v : JsVal) : option string :=
  match v with
  | VError _ m => Some m
  | _ => None
  end.

(** [err && err.message ? String(err.message) : String(err)], the idiom the
    sources use to turn a caught value into text. *)
Definition message_or_string (err : JsVal) : string :=
  if truthy err then
    match message_prop err with
    | Some m => if String.eqb m "" then toString err else m
    | None => toString err
    end
  else toString err.

(** What V8 throws for a property read on [null] / [undefined]. *)
Definition nullish_read (v : JsVal) (prop : string) : JsVal :=
  VError "TypeError"
    ("Cannot read properties of " +:+ toString v +:+ " (reading '" +:+ prop +:+ "')").

Definition nullish (v : JsVal) : bool :=
  match v with
  | VUndefined | VNull => true
  | _ => false
  end.

(** What V8 throws when a parameter pattern [{ prop, ... }] is matched
    against [null] or [undefined]; the value is shown with its [typeof] in
    front unless it is [undefined]. *)
Definition destructure_error (v : JsVal) (prop : string) : JsVal :=
  let shown := if v is VNull then "object null" else toString v in
  VError "TypeError"
    ("Cannot destructure property '" +:+ prop +:+ "' of '" +:+ shown
     +:+ "' as it is " +:+ toString v +:+ ".").

(** [Number(x) || d] for an argument that already is a number. *)
Definition number_or (x : JsNumber) (d : Z) : Z :=
  match x with
  | JNaN => d
  | JInt z => if z =? 0 then d else z
  end.

(** Storing a number into a [Uint8Array] / [Buffer] slot (ToUint8). *)
Definition to_uint8 (z : Z) : Z := z mod 256.

(** *** [parseInt(x, 10)] *)

Definition is_space (c : ascii) : bool :=
  let n := nat_of_ascii c in
  ((9 <=? n) && (n <=? 13) || (n =? 32))%nat.

Definition digit_of (c : ascii) : option Z :=
  let n := nat_of_ascii c in
  if ((48 <=? n) && (n <=? 57))%nat then Some (Z.of_nat n - 48) else None.

Fixpoint skip_spaces (s : string) : string :=
  match s with
  | String c s' => if is_space c then skip_spaces s' else s
  | EmptyString => s
  end.

(** Longest prefix of decimal digits, accumulated left to right; [None] when
    no digit was read. *)
Fixpoint digits (s : string) (acc : option Z) : option Z :=
  match s with
  | String c s' =>
      match digit_of c with
      | Some d => digits s' (Some (10 * default 0 acc + d))
      | None => acc
      end
  | EmptyString => acc
  end.

Definition parse_decimal (s : string) : JsNumber :=
  let s := skip_spaces s in
  let '(neg, body) :=
    match s with
    | String "-" s' => (true, s')
    | String "+" s' => (false, s')
    | _ => (false, s)
    end in
  match digits body None with
  | Some z => JInt (if neg then - z else z)
  | None => JNaN
  end.

(** [parseInt(x, 10)]: the argument is converted to a string first.  A safe
    integer is printed digit by digit and so parses back to itself; [NaN] is
    printed as ["NaN"] and parses to [NaN]. *)
Definition parseInt10 (x : JsVal) : JsNumber :=
  match x with
  | VNum n => n
  | _ => parse_decimal (toString x)
  end.

(** *** Where the embedding of strings and numbers is exact

    A [string] stands for the JS string with the same characters, all of
    them ASCII: beyond ASCII [toUpperCase] maps more letters, and [parseInt]
    skips more kinds of white space, than the definitions of this file.  A
    [JInt z] stands for a safe integer: [String] prints larger doubles
    rounded or in exponent form, and [parseInt] rounds a longer digit string
    to the nearest double (or to [Infinity]). *)
Definition ascii_text (s : string) : bool :=
  forallb (fun c => (nat_of_ascii c <? 128)%nat) (list_ascii_of_string s).

Definition safe_integer (z : Z) : bool := Z.abs z <? 2 ^ 53.

Definition in_range (n : JsNumber) : bool :=
  match n with
  | JNaN => true
  | JInt z => safe_integer z
  end.

(** The arguments on which [parseInt10 x] is [parseInt(x, 10)]. *)
Definition exact_parse (x : JsVal) : bool :=
  match x with
  | VNum n => in_range n
  | _ => ascii_text (toString x) && in_range (parse_decimal (toString x))
  end.

(** [x || d]. *)
Definition or_else (x d : JsVal) : JsVal := if truthy x then x else d.

End Js.

(* ===================================================================== *)
(** ** 2. Asynchronous functions as resumptions *)
(* ===================================================================== *)

Module Async.
Import Js.

(** The three promise-returning primitives of a reader object.  The first
    component is the reader object the method is invoked on. *)
Inductive Call :=
| Authenticate (rid : nat) (block keyType : Z) (key : list Z)
| ReadBlock (rid : nat) (block len blockSize : Z)
| WriteBlock (rid : nat) (block : Z) (buf : list Z) (blockSize : Z).

(** How the driver settles such a promise.  [authenticate] and [write]
    resolve without a payload (the list is ignored). *)
Inductive Reply :=
| Resolved (data : list Z)
| Rejected (e : JsVal).

(** The body of an [async] function over a mutable store [St]: it runs
    synchronously, reading and writing the store, until it returns, throws,
    or awaits a driver promise, at which point the rest of the body is the
    continuation. *)
Inductive Co (St A : Type) : Type :=
| CoRet (a : A)
| CoThrow (e : JsVal)
| CoGet (k : St -> Co St A)
| CoPut (s : St) (k : Co St A)
| CoAwait (c : Call) (k : Reply -> Co St A).
Arguments CoRet {St A} a.
Arguments CoThrow {St A} e.
Arguments CoGet {St A} k.
Arguments CoPut {St A} s k.
Arguments CoAwait {St A} c k.

Fixpoint co_bind {St A B} (p : Co St A) (f : A -> Co St B) : Co St B :=
  match p with
  | CoRet a => f a
  | CoThrow e => CoThrow e
  | CoGet k => CoGet (fun s => co_bind (k s) f)
  | CoPut s k => CoPut s (co_bind k f)
  | CoAwait c k => CoAwait c (fun r => co_bind (k r) f)
  end.

#[export] Instance co_mret {St} : MRet (Co St) := fun _ a => CoRet a.
#[export] Instance co_mbind {St} : MBind (Co St) := fun _ _ f p => co_bind p f.

(** [try { p } catch (e) { h e }] *)
Fixpoint try_catch {St A} (p : Co St A) (h : JsVal -> Co St A) : Co St A :=
  match p with
  | CoRet a => CoRet a
  | CoThrow e => h e
  | CoGet k => CoGet (fun s => try_catch (k s) h)
  | CoPut s k => CoPut s (try_catch k h)
  | CoAwait c k => CoAwait c (fun r => try_catch (k r) h)
  end.

(** [try { p } finally { f }]: [f] runs on both exits and the exit of [p]
    is kept unless [f] itself throws. *)
Fixpoint try_finally {St A} (p : Co St A) (f : Co St unit) : Co St A :=
  match p with
  | CoRet a => co_bind f (fun _ => CoRet a)
  | CoThrow e => co_bind f (fun _ => CoThrow e)
  | CoGet k => CoGet (fun s => try_finally (k s) f)
  | CoPut s k => CoPut s (try_finally k f)
  | CoAwait c k => CoAwait c (fun r => try_finally (k r) f)
  end.

Definition get {St} : Co St St := CoGet CoRet.
Definition modify {St} (f : St -> St) : Co St unit :=
  CoGet (fun s => CoPut (f s) (CoRet tt)).
Definition throw {St A} (e : JsVal) : Co St A := CoThrow e.
Definition await {St} (c : Call) : Co St Reply := CoAwait c CoRet.

(** [await reader.method(...)]: a rejection is rethrown at the await. *)
Definition await_data {St} (c : Call) : Co St (list Z) :=
  CoAwait c (fun r =>
    match r with
    | Resolved d => CoRet d
    | Rejected e => CoThrow e
    end).

(** Running a method of an object that lives in a field of a larger store.
    [proj] is [None] when the field holds [null]; invoking anything on it is
    then a [TypeError]. *)
Fixpoint zoom {St T A} (proj : T -> option St) (upd : St -> T -> T)
    (p : Co St A) : Co T A :=
  match p with
  | CoRet a => CoRet a
  | CoThrow e => CoThrow e
  | CoGet k =>
      CoGet (fun t =>
        match proj t with
        | Some s => zoom proj upd (k s)
        | None => CoThrow (nullish_read VNull "this")
        end)
  | CoPut s k => CoGet (fun t => CoPut (upd s t) (zoom proj upd k))
  | CoAwait c k => CoAwait c (fun r => zoom proj upd (k r))
  end.

(** Where a body stands once its synchronous prefix has run. *)
Inductive Outcome (St A : Type) : Type :=
| Returned (a : A)
| Thrown (e : JsVal)
| Suspended (c : Call) (k : Reply -> Co St A).
Arguments Returned {St A} a.
Arguments Thrown {St A} e.
Arguments Suspended {St A} c k.

(** Run up to the next driver await (or to completion). *)
Fixpoint run {St A} (p : Co St A) (s : St) : St * Outcome St A :=
  match p with
  | CoRet a => (s, Returned a)
  | CoThrow e => (s, Thrown e)
  | CoGet k => run (k s) s
  | CoPut s' k => run k s'
  | CoAwait c k => (s, Suspended c k)
  end.

(** Run with a script of driver replies and nothing else happening in
    between; the driver calls issued are collected in order. *)
Fixpoint exec {St A} (p : Co St A) (script : list Reply) (s : St)
    : St * list Call * Outcome St A :=
  match p with
  | CoRet a => (s, [], Returned a)
  | CoThrow e => (s, [], Thrown e)
  | CoGet k => exec (k s) script s
  | CoPut s' k => exec k script s'
  | CoAwait c k =>
      match script with
      | [] => (s, [c], Suspended c k)
      | r :: script' =>
          let '(s', cs, o) := exec (k r) script' s in (s', c :: cs, o)
      end
  end.

End Async.

(* ===================================================================== *)
(** ** 3. [nfc-service.js]: the reader session *)
(* ===================================================================== *)

Module NfcService.
Import Js Async.

(** The payload of a ['card'] event; only [uid] is looked at. *)
Record Card := mkCard { uid : option string }.

(** A reader object handed over by the driver.  [card] is the property the
    session attaches to it; [KEY_TYPE_A] may or may not be defined on it. *)
Record Reader := mkReader {
  name : string;
  card : option Card;
  KEY_TYPE_A : option Z
}.

(** The fields of an [NFCService] instance.  [readers] is the heap of reader
    objects announced so far by [this.nfc]: the listeners registered in
    [_init] close over their own reader, and [currentReader] is a reference
    to one of them. *)
Record t := mk {
  readers : list Reader;
  isConnected : bool;
  currentReader : option nat;
  lastUID : option string;
  lastError : option string;
  lastErrorCode : option string;
  lastErrorAt : option Z;
  _busy : bool
}.

Definition set_readers (v : list Reader) (s : t) : t :=
  mk v (isConnected s) (currentReader s) (lastUID s) (lastError s)
     (lastErrorCode s) (lastErrorAt s) (_busy s).
Definition set_isConnected (v : bool) (s : t) : t :=
  mk (readers s) v (currentReader s) (lastUID s) (lastError s)
     (lastErrorCode s) (lastErrorAt s) (_busy s).
Definition set_currentReader (v : option nat) (s : t) : t :=
  mk (readers s) (isConnected s) v (lastUID s) (lastError s)
     (lastErrorCode s) (lastErrorAt s) (_busy s).
Definition set_lastUID (v : option string) (s : t) : t :=
  mk (readers s) (isConnected s) (currentReader s) v (lastError s)
     (lastErrorCode s) (lastErrorAt s) (_busy s).
Definition set_error (msg code : option string) (at_ : option Z) (s : t) : t :=
  mk (readers s) (isConnected s) (currentReader s) (lastUID s) msg code at_
     (_busy s).
Definition set_busy (v : bool) (s : t) : t :=
  mk (readers s) (isConnected s) (currentReader s) (lastUID s) (lastError s)
     (lastErrorCode s) (lastErrorAt s) v.

(** [constructor]: the field initialisers; [_init] only registers
    listeners, which [applyEvent] below plays. *)
Definition new : t :=
  {| readers := []; isConnected := false; currentReader := None;
     lastUID := None; lastError := None; lastErrorCode := None;
     lastErrorAt := None; _busy := false |}.

(** *** [_setError] *)

Definition upper_ascii (c : ascii) : ascii :=
  let n := nat_of_ascii c in
  if ((97 <=? n) && (n <=? 122))%nat then ascii_of_nat (n - 32) else c.

(** [toUpperCase] on ASCII text ([Js.ascii_text]), where the letters [a]
    to [z] are the only characters it maps. *)
Fixpoint toUpperCase (s : string) : string :=
  match s with
  | EmptyString => EmptyString
  | String c s' => String (upper_ascii c) (toUpperCase s')
  end.

Fixpoint includes (s needle : string) : bool :=
  String.prefix needle s ||
  match s with
  | EmptyString => false
  | String _ s' => includes s' needle
  end.

Definition _setError (now : Z) (err : JsVal) (s : t) : t :=
  if negb (truthy err) then set_error None None None s
  else
    let msg := message_or_string err in
    let upper := toUpperCase msg in
    let code :=
      if includes upper "SCARD_E_NO_SERVICE" || includes upper "SERVICE NOT RUNNING"
      then "PCSC_SERVICE_NOT_RUNNING"
      else if includes upper "SCARD_E_NO_READERS_AVAILABLE"
              || includes upper "NO READERS AVAILABLE"
      then "NO_READERS"
      else "UNKNOWN" in
    set_error (Some msg) (Some code) (Some now) s.

(** *** [_init]: the driver listeners *)

Inductive DriverEvent :=
| ReaderAppeared (r : Reader)                 (* nfc.on('reader') *)
| CardInserted (rid : nat) (c : option Card)  (* reader.on('card') *)
| CardRemoved (rid : nat)                     (* reader.on('card.off') *)
| ReaderError (rid : nat) (err : JsVal)       (* reader.on('error') *)
| ReaderEnd (rid : nat)                       (* reader.on('end') *)
| NfcError (err : JsVal).                     (* nfc.on('error') *)

(** [x || null] on an optional string. *)
Definition nonempty (x : option string) : option string :=
  match x with
  | Some u => if String.eqb u "" then None else Some u
  | None => None
  end.

Definition set_card (c : option Card) (r : Reader) : Reader :=
  {| name := name r; card := c; KEY_TYPE_A := KEY_TYPE_A r |}.

(** A reader-scoped listener exists only on readers that were announced. *)
Definition announced (rid : nat) (s : t) : bool :=
  bool_decide (rid < length (readers s))%nat.

Definition applyEvent (now : Z) (ev : DriverEvent) (s : t) : t :=
  match ev with
  | ReaderAppeared r =>
      let rid := length (readers s) in
      _setError now VNull
        (set_isConnected true
          (set_currentReader (Some rid) (set_readers (readers s ++ [r]) s)))
  | CardInserted rid c =>
      if announced rid s then
        set_readers (alter (set_card c) rid (readers s))
          (set_lastUID (nonempty (c ≫= uid)) s)
      else s
  | CardRemoved rid =>
      if announced rid s then
        set_readers (alter (set_card None) rid (readers s))
          (set_lastUID None s)
      else s
  | ReaderError rid err =>
      if announced rid s then _setError now err s else s
  | ReaderEnd rid =>
      if announced rid s then
        set_lastUID None (set_currentReader None (set_isConnected false s))
      else s
  | NfcError err =>
      _setError now err
        (set_lastUID None (set_currentReader None (set_isConnected false s)))
  end.

(** *** Accessors and operations *)

Definition getCurrentUID (s : t) : option string := nonempty (lastUID s).

Definition busy_error : JsVal := VError "Error" "Busy".
Definition not_connected : JsVal := VError "Error" "NFC_NOT_CONNECTED".
Definition auth_failed : JsVal := VError "Error" "NFC_AUTH_FAILED".

Definition _withLock {A} (fn : Co t A) : Co t A :=
  this ← get;
  if _busy this then throw busy_error
  else
    modify (set_busy true);;
    try_finally fn (modify (set_busy false)).

Definition vendor_key : list Z := [0xD3; 0xF7; 0xD3; 0xF7; 0xD3; 0xF7].
Definition default_key : list Z := [0xFF; 0xFF; 0xFF; 0xFF; 0xFF; 0xFF].
Definition auth_keys : list (list Z) := [vendor_key; default_key].

(** [reader.KEY_TYPE_A || 0x60] *)
Definition key_type_a (r : option Reader) : Z :=
  match r ≫= KEY_TYPE_A with
  | Some k => if k =? 0 then 0x60 else k
  | None => 0x60
  end.

(** The [for (const key of keys)] loop with its [lastErr] variable. *)
Fixpoint auth_loop (reader : nat) (block keyType : Z) (keys : list (list Z))
    (lastErr : JsVal) : Co t bool :=
  match keys with
  | [] => throw (or_else lastErr auth_failed)
  | key :: rest =>
      r ← await (Authenticate reader block keyType key);
      match r with
      | Resolved _ => mret true
      | Rejected e => auth_loop reader block keyType rest e
      end
  end.

Definition _authenticateBlock (block : Z) : Co t bool :=
  this ← get;
  match currentReader this with
  | None => throw not_connected
  | Some reader =>
      let keyType := key_type_a (readers this !! reader) in
      auth_loop reader block keyType auth_keys VNull
  end.

(** [data[i] || d] on the buffer the driver resolved with. *)
Definition byte_or (data : list Z) (i : nat) (d : Z) : Z :=
  match data !! i with
  | Some b => if b =? 0 then d else b
  | None => d
  end.

Definition readTag : Co t TagRecord :=
  this ← get;
  if currentReader this is None then throw not_connected
  else
    _withLock (
      _authenticateBlock 4;;
      this ← get;
      match currentReader this with
      | None => throw (nullish_read VNull "read")
      | Some reader =>
          data ← await_data (ReadBlock reader 4 16 16);
          let material := byte_or data 0 0 in
          let color := byte_or data 1 0 in
          let manufacturer := byte_or data 2 1 in
          mret (mkTag material color manufacturer data)
      end).

(** [undefined] for the third argument selects the default [1]. *)
Definition writeTag (materialCode colorCode : JsNumber)
    (manufacturerCode : option JsNumber) : Co t bool :=
  let manufacturerCode := default (JInt 1) manufacturerCode in
  this ← get;
  if currentReader this is None then throw not_connected
  else
    _withLock (
      _authenticateBlock 4;;
      let buf := replicate 16 0 in
      let buf := <[0%nat := to_uint8 (number_or materialCode 0)]> buf in
      let buf := <[1%nat := to_uint8 (number_or colorCode 0)]> buf in
      let buf := <[2%nat := to_uint8 (number_or manufacturerCode 1)]> buf in
      this ← get;
      match currentReader this with
      | None => throw (nullish_read VNull "write")
      | Some reader =>
          await_data (WriteBlock reader 4 buf 16);;
          mret true
      end).

Definition opt_str (x : option string) : JsVal :=
  match x with Some v => VStr v | None => VNull end.

(** [!!(this.currentReader && this.currentReader.card)] *)
Definition cardPresent (s : t) : bool :=
  match currentReader s with
  | Some rid => bool_decide (is_Some (readers s !! rid ≫= card))
  | None => false
  end.

Definition getStatus (s : t) : JsObject :=
  [ ("connected", VBool (isConnected s));
    ("readerName",
       match currentReader s with
       | Some rid => default VUndefined (VStr ∘ name <$> readers s !! rid)
       | None => VNull
       end);
    ("cardPresent", VBool (cardPresent s));
    ("uid", opt_str (lastUID s));
    ("errorCode", opt_str (lastErrorCode s));
    ("errorMessage", opt_str (lastError s));
    ("errorAt",
       match lastErrorAt s with Some a => VNum (JInt a) | None => VNull end) ].

End NfcService.

(* ===================================================================== *)
(** ** 4. The lazy-loading entry point *)
(* ===================================================================== *)

Module Main.
Import Js Async.

(** The module-level variables, followed by what the process sees of its
    environment and what it has emitted. *)
Record Mem := mk {
  NFCServiceCtor : bool;            (* the class has been required *)
  nfcService : option NfcService.t;
  nfcInitFailedAt : Z;
  nfcInitLastErr : JsVal;
  isBusy : bool;
  autoEnabled : bool;
  autoLoop : bool;                  (* an interval handle is held *)
  lastAutoUID : option string;
  mainWindow : bool;                (* mainWindow && !mainWindow.isDestroyed() *)
  (* environment *)
  clock : Z;                        (* Date.now() *)
  requireThrows : option JsVal;     (* require('./nfc-service') would throw *)
  constructThrows : option JsVal;   (* new NFCServiceCtor() would throw *)
  (* emitted *)
  sent : list JsObject;             (* 'rfid-auto-status' messages, oldest first *)
  initAttempts : nat                (* times the construction block was entered *)
}.

Definition set_NFCServiceCtor v m :=
  mk v (nfcService m) (nfcInitFailedAt m) (nfcInitLastErr m) (isBusy m)
     (autoEnabled m) (autoLoop m) (lastAutoUID m) (mainWindow m) (clock m)
     (requireThrows m) (constructThrows m) (sent m) (initAttempts m).
Definition set_nfcService v m :=
  mk (NFCServiceCtor m) v (nfcInitFailedAt m) (nfcInitLastErr m) (isBusy m)
     (autoEnabled m) (autoLoop m) (lastAutoUID m) (mainWindow m) (clock m)
     (requireThrows m) (constructThrows m) (sent m) (initAttempts m).
Definition set_nfcInit failedAt lastErr m :=
  mk (NFCServiceCtor m) (nfcService m) failedAt lastErr (isBusy m)
     (autoEnabled m) (autoLoop m) (lastAutoUID m) (mainWindow m) (clock m)
     (requireThrows m) (constructThrows m) (sent m) (initAttempts m).
Definition set_isBusy v m :=
  mk (NFCServiceCtor m) (nfcService m) (nfcInitFailedAt m) (nfcInitLastErr m) v
     (autoEnabled m) (autoLoop m) (lastAutoUID m) (mainWindow m) (clock m)
     (requireThrows m) (constructThrows m) (sent m) (initAttempts m).
Definition set_autoEnabled v m :=
  mk (NFCServiceCtor m) (nfcService m) (nfcInitFailedAt m) (nfcInitLastErr m)
     (isBusy m) v (autoLoop m) (lastAutoUID m) (mainWindow m) (clock m)
     (requireThrows m) (constructThrows m) (sent m) (initAttempts m).
Definition set_autoLoop v m :=
  mk (NFCServiceCtor m) (nfcService m) (nfcInitFailedAt m) (nfcInitLastErr m)
     (isBusy m) (autoEnabled m) v (lastAutoUID m) (mainWindow m) (clock m)
     (requireThrows m) (constructThrows m) (sent m) (initAttempts m).
Definition set_lastAutoUID v m :=
  mk (NFCServiceCtor m) (nfcService m) (nfcInitFailedAt m) (nfcInitLastErr m)
     (isBusy m) (autoEnabled m) (autoLoop m) v (mainWindow m) (clock m)
     (requireThrows m) (constructThrows m) (sent m) (initAttempts m).
Definition set_environment window now req con m :=
  mk (NFCServiceCtor m) (nfcService m) (nfcInitFailedAt m) (nfcInitLastErr m)
     (isBusy m) (autoEnabled m) (autoLoop m) (lastAutoUID m) window now
     req con (sent m) (initAttempts m).
Definition set_sent v m :=
  mk (NFCServiceCtor m) (nfcService m) (nfcInitFailedAt m) (nfcInitLastErr m)
     (isBusy m) (autoEnabled m) (autoLoop m) (lastAutoUID m) (mainWindow m)
     (clock m) (requireThrows m) (constructThrows m) v (initAttempts m).
Definition count_attempt m :=
  mk (NFCServiceCtor m) (nfcService m) (nfcInitFailedAt m) (nfcInitLastErr m)
     (isBusy m) (autoEnabled m) (autoLoop m) (lastAutoUID m) (mainWindow m)
     (clock m) (requireThrows m) (constructThrows m) (sent m)
     (S (initAttempts m)).

(** The variables as the module initialises them, in a given environment. *)
Definition boot (window : bool) (now : Z) (req con : option JsVal) : Mem :=
  {| NFCServiceCtor := false; nfcService := None; nfcInitFailedAt := 0;
     nfcInitLastErr := VNull; isBusy := false; autoEnabled := false;
     autoLoop := false; lastAutoUID := None; mainWindow := window;
     clock := now; requireThrows := req; constructThrows := con;
     sent := []; initAttempts := 0%nat |}.

Definition NFC_RETRY_AFTER_MS : Z := 5000.

(** Invoking a method on the session object held in [nfcService]. *)
Definition onSvc {A} (p : Co NfcService.t A) : Co Mem A :=
  zoom nfcService (fun s m => set_nfcService (Some s) m) p.

Definition tryGetNfcService (m : Mem) : option NfcService.t := nfcService m.

(** [getNfcService(options)]; the reference it returns is the one held in
    [nfcService] afterwards.  The [console.error] line has no effect on the
    variables and is left out. *)
Definition getNfcService (forceRetry : bool) : Co Mem unit :=
  m ← get;
  if nfcService m is Some _ then mret tt
  else
    let now := clock m in
    if negb forceRetry && negb (nfcInitFailedAt m =? 0)
       && (now - nfcInitFailedAt m <? NFC_RETRY_AFTER_MS)
    then throw NfcService.not_connected
    else
      try_catch
        (modify count_attempt;;
         m ← get;
         (if NFCServiceCtor m then mret tt
          else match requireThrows m with
               | Some e => throw e
               | None => modify (set_NFCServiceCtor true)
               end);;
         m ← get;
         match constructThrows m with
         | Some e => throw e
         | None =>
             modify (set_nfcService (Some NfcService.new));;
             modify (set_nfcInit 0 VNull)
         end)
        (fun e =>
           modify (set_nfcService None);;
           modify (set_nfcInit now e);;
           throw NfcService.not_connected).

Definition toMessageKey (err : JsVal) : string :=
  let msg :=
    if truthy err then
      match message_prop err with
      | Some m => if String.eqb m "" then toString err else m
      | None => toString err
      end
    else "" in
  if String.eqb msg "Busy" then "busy"
  else if String.eqb msg "NFC_NOT_CONNECTED" then "nfcNotConnected"
  else if String.eqb msg "NFC_AUTH_FAILED" then "nfcAuthFailed"
  else "unknownError".

Definition sendAutoStatus (payload : JsObject) : Co Mem unit :=
  m ← get;
  if mainWindow m then modify (set_sent (sent m ++ [payload])) else mret tt.

Definition auto_status (present : bool) (tagData error : JsVal) : JsObject :=
  [("present", VBool present); ("tagData", tagData); ("error", error)].

(** [err.message || String(err)] with no guard on [err]: reading [message]
    off [null] or [undefined] throws. *)
Definition message_unguarded (err : JsVal) : Co Mem string :=
  match err with
  | VUndefined | VNull => throw (nullish_read err "message")
  | _ =>
      mret match message_prop err with
           | Some m => if String.eqb m "" then toString err else m
           | None => toString err
           end
  end.

(** The callback [startAutoLoop] hands to [setInterval]. *)
Definition tick : Co Mem unit :=
  try_catch
    (m ← get;
     if negb (autoEnabled m) then mret tt
     else if isBusy m then mret tt
     else
       match tryGetNfcService m with
       | None => mret tt
       | Some svc =>
           match NfcService.getCurrentUID svc with
           | Some uid =>
               if bool_decide (Some uid ≠ lastAutoUID m) then
                 modify (set_isBusy true);;
                 try_finally
                   (try_catch
                      (data ← onSvc NfcService.readTag;
                       modify (set_lastAutoUID (Some uid));;
                       sendAutoStatus (auto_status true (VTag data) VNull))
                      (fun err =>
                         msg ← message_unguarded err;
                         sendAutoStatus (auto_status true VNull (VStr msg))))
                   (modify (set_isBusy false))
               else mret tt
           | None =>
               if bool_decide (is_Some (NfcService.nonempty (lastAutoUID m))) then
                 modify (set_lastAutoUID None);;
                 sendAutoStatus (auto_status false VNull VNull)
               else mret tt
           end
       end)
    (fun err =>
       modify (set_lastAutoUID None);;
       msg ← message_unguarded err;
       sendAutoStatus (auto_status false VNull (VStr msg))).

Definition startAutoLoop : Co Mem unit :=
  m ← get;
  if autoLoop m then mret tt else modify (set_autoLoop true).

Definition stopAutoLoop : Co Mem unit :=
  m ← get;
  (if autoLoop m then modify (set_autoLoop false) else mret tt);;
  modify (set_lastAutoUID None).

Definition busy_result : JsObject :=
  [("success", VBool false); ("messageKey", VStr "busy")].

Definition failure_result (err : JsVal) : JsObject :=
  [("success", VBool false); ("messageKey", VStr (toMessageKey err));
   ("details", VStr (message_or_string err))].

(** [ipcMain.handle('rfid-write', ...)] *)
Definition rfid_write (materialCode colorCode manufacturerCode : JsVal)
    : Co Mem JsObject :=
  m ← get;
  if isBusy m then mret busy_result
  else
    modify (set_isBusy true);;
    try_finally
      (try_catch
         (getNfcService true;;
          onSvc (NfcService.writeTag
                   (parseInt10 materialCode)
                   (parseInt10 colorCode)
                   (Some (parseInt10 (or_else manufacturerCode (VNum (JInt 1))))));;
          mret [("success", VBool true)])
         (fun err => mret (failure_result err)))
      (modify (set_isBusy false)).

(** [ipcMain.handle('rfid-read', ...)] *)
Definition rfid_read : Co Mem JsObject :=
  m ← get;
  if isBusy m then mret busy_result
  else
    modify (set_isBusy true);;
    try_finally
      (try_catch
         (getNfcService true;;
          data ← onSvc NfcService.readTag;
          mret [("success", VBool true); ("data", VTag data)])
         (fun err => mret (failure_result err)))
      (modify (set_isBusy false)).

(** [ipcMain.handle('rfid-status', ...)] *)
Definition rfid_status : Co Mem JsObject :=
  m ← get;
  match tryGetNfcService m with
  | None =>
      mret [("connected", VBool false); ("readerName", VNull);
            ("cardPresent", VBool false); ("uid", VNull)]
  | Some svc => mret (NfcService.getStatus svc)
  end.

(** [ipcMain.handle('rfid-auto', ...)] *)
Definition rfid_auto (enable : JsVal) : Co Mem JsObject :=
  modify (set_autoEnabled (truthy enable));;
  m ← get;
  if autoEnabled m then
    try_catch
      (getNfcService true;;
       startAutoLoop;;
       m ← get;
       match nfcService m with
       | None => throw (nullish_read VNull "getCurrentUID")
       | Some svc =>
           match NfcService.getCurrentUID svc with
           | Some uid =>
               if negb (isBusy m) then
                 modify (set_isBusy true);;
                 try_finally
                   (try_catch
                      (data ← onSvc NfcService.readTag;
                       modify (set_lastAutoUID (Some uid));;
                       sendAutoStatus (auto_status true (VTag data) VNull))
                      (fun err =>
                         sendAutoStatus
                           (auto_status true VNull (VStr (message_or_string err)))))
                   (modify (set_isBusy false))
               else mret tt
           | None => mret tt
           end
       end;;
       mret [("enabled", VBool true)])
      (fun _ =>
         modify (set_autoEnabled false);;
         stopAutoLoop;;
         sendAutoStatus (auto_status false VNull (VStr "NFC_NOT_CONNECTED"));;
         mret [("enabled", VBool false); ("messageKey", VStr "nfcNotConnected")])
  else
    stopAutoLoop;;
    sendAutoStatus (auto_status false VNull VNull);;
    mret [("enabled", VBool false)].

(** The handlers of ['rfid-write'] and ['rfid-auto'] take their payload
    through a parameter pattern, which is matched before the body (and its
    [try]) is entered: [null] and [undefined] throw there; any other value
    that is not an object holding the fields of the pattern binds every one
    of them to [undefined]. *)
Definition rfid_write_bare (payload : JsVal) : Co Mem JsObject :=
  if nullish payload then throw (destructure_error payload "materialCode")
  else rfid_write VUndefined VUndefined VUndefined.

Definition rfid_auto_bare (payload : JsVal) : Co Mem JsObject :=
  if nullish payload then throw (destructure_error payload "enable")
  else rfid_auto VUndefined.

(** The [setTimeout] started from ['ready-to-show']:
    [try { getNfcService({ forceRetry: false }); } catch {}] *)
Definition startup_init : Co Mem unit :=
  try_catch (getNfcService false) (fun _ => mret tt).

End Main.

(* ===================================================================== *)
(** ** 5. The eager entry point *)
(* ===================================================================== *)

Module MainEager.
Import Js Async.

(** This entry point requires the class at load time and has no backoff:
    its only session variable is [nfcService]. *)
Record Mem := mk {
  nfcService : option NfcService.t;
  constructThrows : option JsVal;
  constructed : nat                 (* times [new NFCService()] was evaluated *)
}.

(** [if (!nfcService) nfcService = new NFCService(); return nfcService;] *)
Definition getNfcService : Co Mem NfcService.t :=
  m ← get;
  match nfcService m with
  | Some svc => mret svc
  | None =>
      match constructThrows m with
      | Some e =>
          CoPut (mk None (constructThrows m) (S (constructed m))) (throw e)
      | None =>
          CoPut (mk (Some NfcService.new) (constructThrows m) (S (constructed m)))
                (mret NfcService.new)
      end
  end.

(** [ipcMain.handle('rfid-status', () => getNfcService().getStatus())] *)
Definition rfid_status : Co Mem JsObject :=
  svc ← getNfcService;
  mret (NfcService.getStatus svc).

End MainEager.

(** The rest of the eager entry point: its handlers and its timer callback,
    over the variables of [MainEager] and the coordinator's own. *)
Module Eager.
Import Js Async.

Record Mem := mk {
  session : MainEager.Mem;          (* [nfcService] and what constructing it does *)
  isBusy : bool;
  autoEnabled : bool;
  autoLoop : bool;
  lastAutoUID : option string;
  mainWindow : bool;
  sent : list JsObject
}.

Definition set_session v m :=
  mk v (isBusy m) (autoEnabled m) (autoLoop m) (lastAutoUID m) (mainWindow m)
     (sent m).
Definition set_isBusy v m :=
  mk (session m) v (autoEnabled m) (autoLoop m) (lastAutoUID m) (mainWindow m)
     (sent m).
Definition set_autoEnabled v m :=
  mk (session m) (isBusy m) v (autoLoop m) (lastAutoUID m) (mainWindow m)
     (sent m).
Definition set_autoLoop v m :=
  mk (session m) (isBusy m) (autoEnabled m) v (lastAutoUID m) (mainWindow m)
     (sent m).
Definition set_lastAutoUID v m :=
  mk (session m) (isBusy m) (autoEnabled m) (autoLoop m) v (mainWindow m)
     (sent m).
Definition set_sent v m :=
  mk (session m) (isBusy m) (autoEnabled m) (autoLoop m) (lastAutoUID m)
     (mainWindow m) v.

(** The variables as the module initialises them. *)
Definition boot (window : bool) (con : option JsVal) : Mem :=
  {| session := MainEager.mk None con 0; isBusy := false; autoEnabled := false;
     autoLoop := false; lastAutoUID := None; mainWindow := window; sent := [] |}.

(** [getNfcService()], on the coordinator's store. *)
Definition getNfcService : Co Mem NfcService.t :=
  zoom (fun m => Some (session m)) set_session MainEager.getNfcService.

(** Invoking a method on the object [getNfcService()] returned. *)
Definition onSvc {A} (p : Co NfcService.t A) : Co Mem A :=
  zoom (fun m => MainEager.nfcService (session m))
       (fun svc m =>
          set_session
            (MainEager.mk (Some svc) (MainEager.constructThrows (session m))
                          (MainEager.constructed (session m))) m)
       p.

Definition sendAutoStatus (payload : JsObject) : Co Mem unit :=
  m ← get;
  if mainWindow m then modify (set_sent (sent m ++ [payload])) else mret tt.

(** [err.message || String(err)], unguarded. *)
Definition message_unguarded (err : JsVal) : Co Mem string :=
  match err with
  | VUndefined | VNull => throw (nullish_read err "message")
  | _ =>
      mret match message_prop err with
           | Some m => if String.eqb m "" then toString err else m
           | None => toString err
           end
  end.

(** The read-and-notify block shared by the timer callback and the
    ['rfid-auto'] handler. *)
Definition read_and_notify (uid : string) : Co Mem unit :=
  modify (set_isBusy true);;
  try_finally
    (try_catch
       (getNfcService;;
        data ← onSvc NfcService.readTag;
        modify (set_lastAutoUID (Some uid));;
        sendAutoStatus (Main.auto_status true (VTag data) VNull))
       (fun err =>
          msg ← message_unguarded err;
          sendAutoStatus (Main.auto_status true VNull (VStr msg))))
    (modify (set_isBusy false)).

(** The callback [startAutoLoop] hands to [setInterval]. *)
Definition tick : Co Mem unit :=
  try_catch
    (m ← get;
     if negb (autoEnabled m) then mret tt
     else if isBusy m then mret tt
     else
       svc ← getNfcService;
       m ← get;
       match NfcService.getCurrentUID svc with
       | Some uid =>
           if bool_decide (Some uid ≠ lastAutoUID m) then read_and_notify uid
           else mret tt
       | None =>
           if bool_decide (is_Some (NfcService.nonempty (lastAutoUID m))) then
             modify (set_lastAutoUID None);;
             sendAutoStatus (Main.auto_status false VNull VNull)
           else mret tt
       end)
    (fun err =>
       modify (set_lastAutoUID None);;
       msg ← message_unguarded err;
       sendAutoStatus (Main.auto_status false VNull (VStr msg))).

Definition startAutoLoop : Co Mem unit :=
  m ← get;
  if autoLoop m then mret tt else modify (set_autoLoop true).

Definition stopAutoLoop : Co Mem unit :=
  m ← get;
  (if autoLoop m then modify (set_autoLoop false) else mret tt);;
  modify (set_lastAutoUID None).

(** [ipcMain.handle('rfid-write', ...)] *)
Definition rfid_write (materialCode colorCode manufacturerCode : JsVal)
    : Co Mem JsObject :=
  m ← get;
  if isBusy m then mret Main.busy_result
  else
    modify (set_isBusy true);;
    try_finally
      (try_catch
         (getNfcService;;
          onSvc (NfcService.writeTag
                   (parseInt10 materialCode)
                   (parseInt10 colorCode)
                   (Some (parseInt10 (or_else manufacturerCode (VNum (JInt 1))))));;
          mret [("success", VBool true)])
         (fun err => mret (Main.failure_result err)))
      (modify (set_isBusy false)).

(** [ipcMain.handle('rfid-read', ...)] *)
Definition rfid_read : Co Mem JsObject :=
  m ← get;
  if isBusy m then mret Main.busy_result
  else
    modify (set_isBusy true);;
    try_finally
      (try_catch
         (getNfcService;;
          data ← onSvc NfcService.readTag;
          mret [("success", VBool true); ("data", VTag data)])
         (fun err => mret (Main.failure_result err)))
      (modify (set_isBusy false)).

(** [ipcMain.handle('rfid-status', ...)], on the coordinator's store. *)
Definition rfid_status : Co Mem JsObject :=
  zoom (fun m => Some (session m)) set_session MainEager.rfid_status.

(** [ipcMain.handle('rfid-auto', ...)] *)
Definition rfid_auto (enable : JsVal) : Co Mem JsObject :=
  modify (set_autoEnabled (truthy enable));;
  m ← get;
  (if autoEnabled m then
     startAutoLoop;;
     svc ← getNfcService;
     m ← get;
     match NfcService.getCurrentUID svc with
     | Some uid => if negb (isBusy m) then read_and_notify uid else mret tt
     | None => mret tt
     end
   else
     stopAutoLoop;;
     sendAutoStatus (Main.auto_status false VNull VNull));;
  m ← get;
  mret [("enabled", VBool (autoEnabled m))].

End Eager.

(* ===================================================================== *)
(** ** 6. The event loop *)
(* ===================================================================== *)

(** Node runs one macrotask at a time and drains every continuation that
    became runnable before taking the next one.  The only promises settled
    from outside are the driver's, so a handler runs atomically from the event
    that starts or resumes it up to its next driver await. *)
Module Loop.
Import Js Async Main.

(** A suspended handler: the driver call it waits for and the rest of its
    body.  IPC handlers finish with their result object, timer callbacks
    with nothing. *)
Record Task := mkTask {
  tid : nat;
  awaiting : Call;
  resume : Reply -> Co Mem (option JsObject)
}.

Record Sys := mkSys {
  mem : Mem;
  pool : list Task;                  (* handlers waiting on the driver *)
  next_tid : nat;
  results : list (nat * JsObject);   (* settled IPC invocations, oldest first *)
  unhandled : list JsVal             (* what handlers and callbacks ended with
                                        when they threw: nothing in the process
                                        catches these *)
}.

(** An invocation with an object as payload is given by the fields the
    handler's pattern takes from it (an absent field is [undefined]); the
    [Bare] forms are the invocations whose payload is something else, such as
    the [undefined] of an [invoke] without arguments. *)
Inductive Request :=
| RfidWrite (materialCode colorCode manufacturerCode : JsVal)
| RfidRead
| RfidStatus
| RfidAuto (enable : JsVal)
| RfidWriteBare (payload : JsVal)
| RfidAutoBare (payload : JsVal).

Inductive Event :=
| Invoke (req : Request)                      (* ipcRenderer.invoke *)
| Tick                                        (* the 200 ms interval fires *)
| StartupTimer                                (* the 800 ms timeout fires *)
| Driver (ev : NfcService.DriverEvent)        (* an nfc-pcsc event *)
| Settle (t : nat) (r : Reply)                (* the driver settles task t's call *)
| Environment (window : bool) (now : Z) (req con : option JsVal).

Definition replying (p : Co Mem JsObject) : Co Mem (option JsObject) :=
  o ← p; mret (Some o).

Definition silent (p : Co Mem unit) : Co Mem (option JsObject) :=
  p;; mret None.

Definition handler (req : Request) : Co Mem (option JsObject) :=
  match req with
  | RfidWrite a b c => replying (rfid_write a b c)
  | RfidRead => replying rfid_read
  | RfidStatus => replying rfid_status
  | RfidAuto e => replying (rfid_auto e)
  | RfidWriteBare p => replying (rfid_write_bare p)
  | RfidAutoBare p => replying (rfid_auto_bare p)
  end.

(** Run a body up to its next await and file the outcome. *)
Definition advance (t : nat) (p : Co Mem (option JsObject)) (s : Sys) : Sys :=
  match run p (mem s) with
  | (m, Returned (Some o)) =>
      mkSys m (pool s) (next_tid s) (results s ++ [(t, o)]) (unhandled s)
  | (m, Returned None) =>
      mkSys m (pool s) (next_tid s) (results s) (unhandled s)
  | (m, Thrown e) =>
      mkSys m (pool s) (next_tid s) (results s) (unhandled s ++ [e])
  | (m, Suspended c k) =>
      mkSys m (pool s ++ [mkTask t c k]) (next_tid s) (results s) (unhandled s)
  end.

Definition spawn (p : Co Mem (option JsObject)) (s : Sys) : Sys :=
  let t := next_tid s in
  advance t p (mkSys (mem s) (pool s) (S t) (results s) (unhandled s)).

Definition find_task (t : nat) (l : list Task) : option Task :=
  head (filter (fun x => tid x = t) l).

Definition drop_task (t : nat) (l : list Task) : list Task :=
  filter (fun x => tid x ≠ t) l.

Definition step (s : Sys) (ev : Event) : Sys :=
  match ev with
  | Invoke req => spawn (handler req) s
  | Tick =>
      if autoLoop (mem s) then spawn (silent tick) s else s
  | StartupTimer => spawn (silent startup_init) s
  | Driver d =>
      match nfcService (mem s) with
      | Some svc =>
          let svc' := NfcService.applyEvent (clock (mem s)) d svc in
          mkSys (set_nfcService (Some svc') (mem s)) (pool s) (next_tid s)
                (results s) (unhandled s)
      | None => s
      end
  | Settle t r =>
      match find_task t (pool s) with
      | Some task =>
          advance t (resume task r)
            (mkSys (mem s) (drop_task t (pool s)) (next_tid s) (results s)
                   (unhandled s))
      | None => s
      end
  | Environment w now req con =>
      mkSys (set_environment w now req con (mem s)) (pool s) (next_tid s)
            (results s) (unhandled s)
  end.

Definition steps (s : Sys) (evs : list Event) : Sys := foldl step s evs.

Definition start (window : bool) (now : Z) (req con : option JsVal) : Sys :=
  mkSys (boot window now req con) [] 0 [] [].

(** The number of authenticate/read/write sequences in flight. *)
Definition in_flight (s : Sys) : nat := length (pool s).

End Loop.

(* ===================================================================== *)
(** ** 7. Vocabulary of the properties *)
(* ===================================================================== *)

(** Driver scripts, and the session states the operations are run from. *)
Module Scenario.
Import Js Async.

(** The replies to the [authenticate] calls of a sequence that gets through:
    the vendor key is accepted, or it is rejected and the default key is
    accepted. *)
Inductive auth_success : list Reply -> Prop :=
| vendor_accepted d : auth_success [Resolved d]
| default_accepted e d : auth_success [Rejected e; Resolved d].

(** The [authenticate] calls a script of that length answers. *)
Definition auth_calls (rid : nat) (block keyType : Z) (script : list Reply)
    : list Call :=
  Authenticate rid block keyType <$> take (length script) NfcService.auth_keys.

(** A session with reader [rid] current and the lock free. *)
Definition ready (s : NfcService.t) (rid : nat) : Prop :=
  NfcService.currentReader s = Some rid /\ NfcService._busy s = false.

Definition acr122 : NfcService.Reader := NfcService.mkReader "ACR122U" None None.

(** A freshly constructed session after its first ['reader'] event. *)
Definition connected : NfcService.t :=
  NfcService.applyEvent 0 (NfcService.ReaderAppeared acr122) NfcService.new.

(** What nfc-pcsc rejects [authenticate] with when a key is refused. *)
Definition key_refused : JsVal :=
  VError "AuthenticationError" "Authentication failed! Status code: 0x6300".

End Scenario.

(** The environment of the session factory and of the auto-detect loop. *)
Module Watch.
Import Js Async Main.

(** What the construction block of [getNfcService] would throw in the
    present environment, if anything: [require] is only evaluated while the
    class is not cached. *)
Definition construction_error (m : Mem) : option JsVal :=
  if NFCServiceCtor m then constructThrows m
  else match requireThrows m with
       | Some e => Some e
       | None => constructThrows m
       end.

(** Auto-detect is enabled, nothing is in flight, the session object [svc]
    exists and the window is there to receive notifications. *)
Definition watching (m : Mem) (svc : NfcService.t) : Prop :=
  autoEnabled m = true /\ isBusy m = false /\ mainWindow m = true /\
  nfcService m = Some svc /\ NfcService._busy svc = false.

(** The same without the window: what a tick needs to go to work. *)
Definition polling (m : Mem) (svc : NfcService.t) : Prop :=
  autoEnabled m = true /\ isBusy m = false /\
  nfcService m = Some svc /\ NfcService._busy svc = false.

(** The variables after [sendAutoStatus(payload)]: the message goes out
    only while the window exists. *)
Definition notified (payload : JsObject) (m : Mem) : Mem :=
  if mainWindow m then set_sent (sent m ++ [payload]) m else m.

(** The tick sees the UID it has last notified (or none, as before). *)
Definition unchanged (m : Mem) (svc : NfcService.t) : Prop :=
  match NfcService.getCurrentUID svc with
  | Some u => lastAutoUID m = Some u
  | None => NfcService.nonempty (lastAutoUID m) = None
  end.

(** The record [readTag] builds from a block. *)
Definition decode (data : list Z) : TagRecord :=
  mkTag (NfcService.byte_or data 0 0) (NfcService.byte_or data 1 0)
        (NfcService.byte_or data 2 1) data.


End Watch.

(** The session invariant of the data model. *)
Module Pairing.
Import NfcService.

(** [cardHandle] and [currentUID] are both present or both absent. *)
Definition paired (s : t) : Prop :=
  cardPresent s = true <-> is_Some (lastUID s).

(** [currentReader] refers to an announced reader object. *)
Definition bound (s : t) : Prop :=
  forall rid, currentReader s = Some rid -> (rid < length (readers s))%nat.

(** The discipline under which the pair is kept, for an event arriving in
    state [s]: a reader is announced only while no UID is held, and its
    object has no card attached yet; card events come from the current
    reader; an inserted card carries a non-empty UID.  The other events are
    free. *)
Definition orderly (s : t) (ev : DriverEvent) : Prop :=
  match ev with
  | ReaderAppeared r => lastUID s = None /\ card r = None
  | CardInserted rid c =>
      currentReader s = Some rid /\ is_Some (nonempty (c ≫= uid))
  | CardRemoved rid => currentReader s = Some rid
  | ReaderError _ _ | ReaderEnd _ | NfcError _ => True
  end.

(** Every event of the run [evs] is orderly in the state it arrives in,
    starting from [s]. *)
Fixpoint orderly_run (now : Z) (s : t) (evs : list DriverEvent) : Prop :=
  match evs with
  | [] => True
  | ev :: evs => orderly s ev /\ orderly_run now (applyEvent now ev s) evs
  end.

(** The session after a run of events, all delivered at time [now]. *)
Definition after (now : Z) (evs : list DriverEvent) (s : t) : t :=
  foldl (fun s ev => applyEvent now ev s) s evs.

End Pairing.

(** The busy discipline of the entry point, as predicates on its variables
    and on suspended handlers. *)
Module Lock.
Import Js Async Main Loop.

(** Neither flag is set. *)
Definition idle (m : Mem) : Prop :=
  isBusy m = false /\
  forall svc, nfcService m = Some svc -> NfcService._busy svc = false.

(** Both flags are set (and the session object exists). *)
Definition held (m : Mem) : Prop :=
  isBusy m = true /\
  exists svc, nfcService m = Some svc /\ NfcService._busy svc = true.

(** [safe p m]: body [p], about to run on variables [m], keeps both flags
    set at every await, whatever the variables have become when it is
    resumed (as long as the flags were left alone), and has cleared both
    when it finishes. *)
Fixpoint safe {A} (p : Co Mem A) (m : Mem) : Prop :=
  match p with
  | CoRet _ | CoThrow _ => idle m
  | CoGet k => safe (k m) m
  | CoPut m' k => safe k m'
  | CoAwait _ k => held m /\ forall r m', held m' -> safe (k r) m'
  end.

(** A body started while an operation is in flight runs to its end at once
    and leaves the flags set. *)
Definition passes {A} (p : Co Mem A) (m : Mem) : Prop :=
  match run p m with
  | (_, Suspended _ _) => False
  | (m', _) => held m'
  end.

(** The invariant of the event loop. *)
Definition inv (s : Sys) : Prop :=
  match pool s with
  | [] => idle (mem s)
  | [t] => held (mem s) /\ forall r m', held m' -> safe (resume t r) m'
  | _ => False
  end.

End Lock.

(** Further vocabulary: what a handler body leaves alone, how long it can
    run, and the session as driven by a timed event log. *)
Module Steady.
Import Js Async Main Loop.

(** [keeps f m0 p m]: body [p], started or last resumed on variables [m0]
    and now at [m], has restored [f] to what it was at [m0] whenever it lets
    other code run (at an await, and when it finishes); after an await the
    same holds again from whatever the variables have become. *)
Fixpoint keeps {X A} (f : Mem -> X) (m0 : Mem) (p : Co Mem A) (m : Mem) : Prop :=
  match p with
  | CoRet _ | CoThrow _ => f m = f m0
  | CoGet k => keeps f m0 (k m) m
  | CoPut m' k => keeps f m0 k m'
  | CoAwait _ k => f m = f m0 /\ forall r m', keeps f m' (k r) m'
  end.

(** The variables of the auto-detect loop and its output channel. *)
Definition auto_state (m : Mem) :=
  (autoEnabled m, autoLoop m, lastAutoUID m, sent m).

(** The variables of the session factory, and whether a session exists. *)
Definition factory_state (m : Mem) :=
  (NFCServiceCtor m, nfcInitFailedAt m, nfcInitLastErr m, initAttempts m,
   bool_decide (is_Some (nfcService m))).

Definition has_session (m : Mem) : Prop := is_Some (nfcService m).

(** If a session object existed at [m0] it exists at [m], and the
    construction block has not been entered in between. *)
Definition stays (m0 m : Mem) : Prop :=
  has_session m0 -> has_session m /\ initAttempts m = initAttempts m0.

(** [settled m0 p m]: whenever body [p] lets other code run, [stays] holds
    since it was started or last resumed, and it only ever waits for the
    driver while a session object exists. *)
Fixpoint settled {A} (m0 : Mem) (p : Co Mem A) (m : Mem) : Prop :=
  match p with
  | CoRet _ | CoThrow _ => stays m0 m
  | CoGet k => settled m0 (k m) m
  | CoPut m' k => settled m0 k m'
  | CoAwait _ k =>
      stays m0 m /\ has_session m /\
      forall r m', has_session m' -> settled m' (k r) m'
  end.

Definition settled_pool (s : Sys) : Prop :=
  (pool s <> [] -> has_session (mem s)) /\
  Forall (fun t => forall r m', has_session m' -> settled m' (resume t r) m')
         (pool s).



(** [within n p m]: [p] finishes after at most [n] driver calls, whatever the
    replies and whatever the variables have become in between. *)
Fixpoint within {A} (n : nat) (p : Co Mem A) (m : Mem) : Prop :=
  match p with
  | CoRet _ | CoThrow _ => True
  | CoGet k => within n (k m) m
  | CoPut m' k => within n k m'
  | CoAwait _ k =>
      match n with
      | O => False
      | S n' => forall r m', within n' (k r) m'
      end
  end.

(** The session after a log of driver events, each with the time at which
    it is delivered. *)
Definition replay (log : list (Z * NfcService.DriverEvent)) (s : NfcService.t)
    : NfcService.t :=
  foldl (fun s '(now, ev) => NfcService.applyEvent now ev s) s log.

(** The three error fields are all [null], or all set with one of the three
    codes. *)
Definition error_triple (s : NfcService.t) : Prop :=
  (NfcService.lastError s = None /\ NfcService.lastErrorCode s = None /\
   NfcService.lastErrorAt s = None) \/
  (is_Some (NfcService.lastError s) /\ is_Some (NfcService.lastErrorAt s) /\
   exists code, NfcService.lastErrorCode s = Some code /\
     (code = "PCSC_SERVICE_NOT_RUNNING" \/ code = "NO_READERS" \/ code = "UNKNOWN")).

(** [connected] is set exactly while a reader handle is held, and the handle
    refers to an announced reader. *)
Definition linked (s : NfcService.t) : Prop :=
  (NfcService.isConnected s = true <-> is_Some (NfcService.currentReader s)) /\
  Pairing.bound s.

(** The error code [_setError] stores for a truthy error. *)
Definition code_of (err : JsVal) : option string :=
  NfcService.lastErrorCode (NfcService._setError 0 err NfcService.new).

(** Sample variables: the session constructed and a reader connected; the
    same with a tag on the reader; no session and a PC/SC service that is
    not running. *)
Definition online : Mem :=
  set_nfcService (Some Scenario.connected) (boot true 0 None None).

Definition tagged : Mem :=
  set_nfcService
    (Some (NfcService.applyEvent 0
             (NfcService.CardInserted 0
                (Some (NfcService.mkCard (Some "04A1B2C3"))))
             Scenario.connected))
    (boot true 0 None None).

Definition no_driver : Mem :=
  boot true 1000 None (Some (VError "Error" "SCARD_E_NO_SERVICE")).

End Steady.


(** Symbolic execution of handler bodies.  [break_state] exposes the
    fields of every store in sight; [walk_lock] follows a body through all of
    its branches and awaits for [Lock.safe], [walk_no_throw] does the same
    for [Watch.no_throw]. *)
Ltac break_state :=
  repeat match goal with
  | m : Main.Mem |- _ => destruct m
  | s : NfcService.t |- _ => destruct s
  | H : Lock.idle _ |- _ => destruct H as [? ?]
  | H : Lock.held _ |- _ => destruct H as (? & ? & ? & ?)
  | H : forall svc, Some ?x = Some svc -> _ |- _ => specialize (H _ eq_refl)
  end; cbn in *; simplify_eq.

Ltac unfold_monad :=
  cbn;
  unfold mret, mbind, Async.co_mret, Async.co_mbind, Main.message_unguarded;
  cbn.

Ltac walk_lock :=
  unfold_monad;
  lazymatch goal with
  | |- Lock.idle _ =>
      unfold Lock.idle; cbn; split; [done | intros; simplify_eq; cbn; by eauto]
  | |- Lock.held _ /\ _ =>
      split; [unfold Lock.held; cbn; by eauto
             | intros ? ? ?; break_state; walk_lock]
  | |- _ => first [case_match | case_bool_decide]; break_state; walk_lock
  end.


Ltac walk_keeps :=
  unfold_monad;
  lazymatch goal with
  | |- _ = _ => reflexivity
  | |- _ = _ /\ _ =>
      split; [reflexivity | intros ? ?; break_state; walk_keeps]
  | |- _ => first [case_match | case_bool_decide]; break_state; walk_keeps
  end.

Ltac solve_stays :=
  unfold Steady.stays, Steady.has_session; cbn; intros Hsession;
  first [ by (destruct Hsession as [? Hsession]; discriminate Hsession)
        | split; [by eauto | reflexivity] ].

Ltac walk_settled :=
  unfold_monad;
  lazymatch goal with
  | |- Steady.stays _ _ => solve_stays
  | |- Steady.stays _ _ /\ _ =>
      split; [solve_stays
             | split; [unfold Steady.has_session; cbn; by eauto
                      | intros ? ? [? ?]; break_state; walk_settled]]
  | |- _ => first [case_match | case_bool_decide]; break_state; walk_settled
  end.

Ltac walk_within :=
  unfold_monad;
  lazymatch goal with
  | |- True => exact I
  | |- forall _, _ => intros ? ?; break_state; walk_within
  | |- _ => first [case_match | case_bool_decide]; break_state; walk_within
  end.

(* ===================================================================== *)
(** ** 8. Properties *)
(* ===================================================================== *)

Import Js Async.

(** *** Authentication *)

Section Authenticate.
Import NfcService Scenario.
Variables (s : NfcService.t) (rid : nat) (block : Z).
Hypothesis current : currentReader s = Some rid.

Local Abbreviation keyType := (key_type_a (readers s !! rid)).

Lemma auth_vendor_first d rest :
  exec (_authenticateBlock block) (Resolved d :: rest) s
  = (s, [Authenticate rid block keyType vendor_key], Returned true).
Proof. unfold _authenticateBlock; cbn. rewrite current. reflexivity. Qed.

Lemma auth_default_second e d rest :
  exec (_authenticateBlock block) (Rejected e :: Resolved d :: rest) s
  = (s, [Authenticate rid block keyType vendor_key;
         Authenticate rid block keyType default_key], Returned true).
Proof. unfold _authenticateBlock; cbn. rewrite current. reflexivity. Qed.

Lemma auth_both_rejected e1 e2 rest :
  exec (_authenticateBlock block) (Rejected e1 :: Rejected e2 :: rest) s
  = (s, [Authenticate rid block keyType vendor_key;
         Authenticate rid block keyType default_key],
     Thrown (if truthy e2 then e2 else auth_failed)).
Proof. unfold _authenticateBlock; cbn. rewrite current. reflexivity. Qed.

Lemma auth_success_calls script rest :
  auth_success script ->
  exec (_authenticateBlock block) (script ++ rest) s
  = (s, auth_calls rid block keyType script, Returned true).
Proof.
  destruct 1; cbn; [apply auth_vendor_first | apply auth_default_second].
Qed.

End Authenticate.

Lemma key_type_a_default r :
  (r ≫= NfcService.KEY_TYPE_A) = None -> NfcService.key_type_a r = 0x60.
Proof. unfold NfcService.key_type_a. intros ->. reflexivity. Qed.

(** The parts of C2 that hold.  With a reader handle present,
    [_authenticateBlock] presents the vendor key first and the
    factory-default key second, both 6 bytes long and both with key-type A:
    [0x60], unless the reader object defines a non-zero [KEY_TYPE_A] of its
    own.  It returns [true] on the first key the driver accepts, so the
    default key is not presented when the vendor key is accepted.  When both
    are rejected it throws [lastErr || new Error('NFC_AUTH_FAILED')]. *)
Lemma authenticateBlock_key_order (s : NfcService.t) (rid : nat) (block : Z) :
  NfcService.currentReader s = Some rid ->
  let own := NfcService.readers s !! rid ≫= NfcService.KEY_TYPE_A in
  let keyType := NfcService.key_type_a (NfcService.readers s !! rid) in
  let vendor := Authenticate rid block keyType NfcService.vendor_key in
  let fallback := Authenticate rid block keyType NfcService.default_key in
  NfcService.vendor_key = [0xD3; 0xF7; 0xD3; 0xF7; 0xD3; 0xF7] /\
  NfcService.default_key = [0xFF; 0xFF; 0xFF; 0xFF; 0xFF; 0xFF] /\
  (own = None \/ own = Some 0 -> keyType = 0x60) /\
  (forall k, own = Some k -> k <> 0 -> keyType = k) /\
  (forall d rest,
     exec (NfcService._authenticateBlock block) (Resolved d :: rest) s
     = (s, [vendor], Returned true)) /\
  (forall e d rest,
     exec (NfcService._authenticateBlock block) (Rejected e :: Resolved d :: rest) s
     = (s, [vendor; fallback], Returned true)) /\
  (forall e1 e2 rest,
     exec (NfcService._authenticateBlock block) (Rejected e1 :: Rejected e2 :: rest) s
     = (s, [vendor; fallback],
        Thrown (if truthy e2 then e2 else NfcService.auth_failed))).
Proof.
  intros Hcur own keyType vendor fallback.
  split; [reflexivity|]. split; [reflexivity|].
  split; [|split].
  - subst keyType. unfold NfcService.key_type_a. fold own.
    intros [-> | ->]; reflexivity.
  - subst keyType. unfold NfcService.key_type_a. fold own.
    intros k -> Hk. destruct (Z.eqb_spec k 0); [contradiction | reflexivity].
  - split; [|split]; intros.
    + apply auth_vendor_first, Hcur.
    + apply auth_default_second, Hcur.
    + apply auth_both_rejected, Hcur.
Qed.

(** C2 at its failing input.  A reader is connected and the driver refuses
    the vendor key and then the default key.  [_authenticateBlock] has tried
    both keys in order with key type [0x60]; what it then throws is the
    driver's own error object: not an [NFC_AUTH_FAILED] error, and not one
    that carries the driver's error.  The coordinator files it under
    ["unknownError"], although it has the key ["nfcAuthFailed"] for the
    [NFC_AUTH_FAILED] error that the last line of the function constructs
    when the rejection value is falsy. *)
Theorem authenticateBlock_rethrows_driver_error :
  exec (NfcService._authenticateBlock 4)
       [Rejected Scenario.key_refused; Rejected Scenario.key_refused]
       Scenario.connected
  = (Scenario.connected,
     [Authenticate 0 4 0x60 NfcService.vendor_key;
      Authenticate 0 4 0x60 NfcService.default_key],
     Thrown Scenario.key_refused) /\
  Scenario.key_refused <> NfcService.auth_failed /\
  message_prop Scenario.key_refused <> Some "NFC_AUTH_FAILED" /\
  Main.toMessageKey Scenario.key_refused = "unknownError" /\
  Main.toMessageKey NfcService.auth_failed = "nfcAuthFailed" /\
  (forall e1 e2,
     truthy e2 = false ->
     (exec (NfcService._authenticateBlock 4) [Rejected e1; Rejected e2]
           Scenario.connected).2
     = Thrown NfcService.auth_failed).
Proof.
  split; [reflexivity|]. split; [discriminate|]. split; [discriminate|].
  split; [reflexivity|]. split; [reflexivity|].
  intros e1 e2 Hfalsy.
  rewrite (auth_both_rejected Scenario.connected 0 4 eq_refl e1 e2 []).
  cbn. rewrite Hfalsy. reflexivity.
Qed.

(** *** Reading and writing block 4 *)

Lemma set_busy_release (s : NfcService.t) :
  NfcService._busy s = false ->
  NfcService.set_busy false (NfcService.set_busy true s) = s.
Proof. destruct s; cbn; intros ->; reflexivity. Qed.

Lemma byte_or_zero (data : list Z) (i : nat) (b : Z) :
  data !! i = Some b -> NfcService.byte_or data i 0 = b.
Proof.
  unfold NfcService.byte_or. intros ->.
  destruct (Z.eqb_spec b 0); congruence.
Qed.

Section Block4.
Import NfcService Scenario.
Variables (s : NfcService.t) (rid : nat).
Hypothesis Hready : ready s rid.

Local Abbreviation keyType := (key_type_a (readers s !! rid)).

(** A read that gets through authentication and whose block read resolves. *)
Lemma readTag_resolved script data :
  auth_success script ->
  exec readTag (script ++ [Resolved data]) s
  = (s, auth_calls rid 4 keyType script ++ [ReadBlock rid 4 16 16],
     Returned (mkTag (byte_or data 0 0) (byte_or data 1 0) (byte_or data 2 1)
                     data)).
Proof.
  destruct Hready as [Hcur Hfree].
  destruct 1; destruct s; cbn in *; subst; reflexivity.
Qed.

(** A write that gets through authentication and whose block write
    resolves. *)
Lemma writeTag_resolved script mc cc fc d :
  auth_success script ->
  exec (writeTag mc cc fc) (script ++ [Resolved d]) s
  = (s, auth_calls rid 4 keyType script ++
        [WriteBlock rid 4
           (to_uint8 (number_or mc 0) :: to_uint8 (number_or cc 0)
              :: to_uint8 (number_or (default (JInt 1) fc) 1) :: replicate 13 0)
           16],
     Returned true).
Proof.
  destruct Hready as [Hcur Hfree].
  destruct 1; destruct s; cbn in *; subst; reflexivity.
Qed.

End Block4.

(** C4 (as amended).  A [readTag] that succeeds on a 16-byte block decodes
    byte 0 as material, byte 1 as color, and byte 2 as manufacturer when that
    byte is non-zero; a zero byte 2 is replaced by the default 1.  The raw
    block is returned unchanged. *)
Theorem readTag_decode (s : NfcService.t) (rid : nat) (script : list Reply)
    (b0 b1 b2 : Z) (rest : list Z) :
  Scenario.ready s rid ->
  Scenario.auth_success script ->
  length (b0 :: b1 :: b2 :: rest) = 16%nat ->
  exec NfcService.readTag (script ++ [Resolved (b0 :: b1 :: b2 :: rest)]) s
  = (s,
     Scenario.auth_calls rid 4
       (NfcService.key_type_a (NfcService.readers s !! rid)) script
       ++ [ReadBlock rid 4 16 16],
     Returned {| material := b0;
                 color := b1;
                 manufacturer := if b2 =? 0 then 1 else b2;
                 rawData := b0 :: b1 :: b2 :: rest |}).
Proof.
  intros Hready Hauth _.
  rewrite (readTag_resolved s rid Hready script _ Hauth).
  rewrite (byte_or_zero _ 0 b0), (byte_or_zero _ 1 b1) by reflexivity.
  reflexivity.
Qed.

Lemma readTag_decode_witness :
  exec NfcService.readTag
       [Rejected Scenario.key_refused; Resolved [];
        Resolved [5; 2; 7; 0; 0; 0; 0; 0; 0; 0; 0; 0; 0; 0; 0; 0]]
       Scenario.connected
  = (Scenario.connected,
     [Authenticate 0 4 0x60 NfcService.vendor_key;
      Authenticate 0 4 0x60 NfcService.default_key;
      ReadBlock 0 4 16 16],
     Returned (mkTag 5 2 7 [5; 2; 7; 0; 0; 0; 0; 0; 0; 0; 0; 0; 0; 0; 0; 0])).
Proof.
  apply (readTag_decode Scenario.connected 0
           [Rejected Scenario.key_refused; Resolved []] 5 2 7
           (replicate 13 0)).
  - split; reflexivity.
  - constructor.
  - reflexivity.
Defined.

(** C4 as stated fails: a block whose byte 2 is zero decodes to manufacturer
    1, not 0, although the byte is present in the 16-byte read. *)
Lemma readTag_zero_manufacturer :
  let block := [5; 2; 0; 0; 0; 0; 0; 0; 0; 0; 0; 0; 0; 0; 0; 0] in
  exists t,
    (exec NfcService.readTag [Resolved []; Resolved block] Scenario.connected).2
      = Returned t /\
    rawData t !! 2%nat = Some 0 /\
    manufacturer t = 1 /\
    manufacturer t <> 0.
Proof. cbv zeta. eexists. split; [reflexivity|]. cbn. repeat split; lia. Qed.

(** C9.  Writing material 5, color 2, manufacturer 1 issues one block write to
    block 4 whose buffer is [5, 2, 1] followed by thirteen zero bytes; a read
    to which the driver answers with that buffer returns material 5, color 2,
    manufacturer 1 and the same raw block. *)
Theorem write_read_roundtrip (s : NfcService.t) (rid : nat)
    (script_w script_r : list Reply) (d : list Z) :
  Scenario.ready s rid ->
  Scenario.auth_success script_w ->
  Scenario.auth_success script_r ->
  exists buf,
    exec (NfcService.writeTag (JInt 5) (JInt 2) (Some (JInt 1)))
         (script_w ++ [Resolved d]) s
    = (s,
       Scenario.auth_calls rid 4
         (NfcService.key_type_a (NfcService.readers s !! rid)) script_w
         ++ [WriteBlock rid 4 buf 16],
       Returned true) /\
    buf = [5; 2; 1] ++ replicate 13 0 /\
    length buf = 16%nat /\
    exec NfcService.readTag (script_r ++ [Resolved buf]) s
    = (s,
       Scenario.auth_calls rid 4
         (NfcService.key_type_a (NfcService.readers s !! rid)) script_r
         ++ [ReadBlock rid 4 16 16],
       Returned {| material := 5; color := 2; manufacturer := 1;
                   rawData := buf |}).
Proof.
  intros Hready Hw Hr. exists ([5; 2; 1] ++ replicate 13 0).
  split; [|split; [|split]].
  - exact (writeTag_resolved s rid Hready script_w _ _ _ d Hw).
  - reflexivity.
  - reflexivity.
  - rewrite (readTag_resolved s rid Hready script_r _ Hr). reflexivity.
Qed.

Lemma write_read_roundtrip_witness :
  exists buf,
    (exec (NfcService.writeTag (JInt 5) (JInt 2) (Some (JInt 1)))
          ([Resolved []] ++ [Resolved []]) Scenario.connected).1.2
      = [Authenticate 0 4 0x60 NfcService.vendor_key; WriteBlock 0 4 buf 16] /\
    (exec NfcService.readTag ([Resolved []] ++ [Resolved buf]) Scenario.connected).2
      = Returned (mkTag 5 2 1 [5; 2; 1; 0; 0; 0; 0; 0; 0; 0; 0; 0; 0; 0; 0; 0]).
Proof.
  destruct (write_read_roundtrip Scenario.connected 0 [Resolved []] [Resolved []] [])
    as (buf & Hw & Hbuf & _ & Hr).
  - split; reflexivity.
  - constructor.
  - constructor.
  - exists buf. rewrite Hw, Hr. subst buf. split; reflexivity.
Defined.

(** C10.  [writeTag] validates no range: whatever the three numbers are, it
    authenticates and writes.  An integer outside 0..255 (negative ones
    included) is stored modulo 256, so material 300 is written as 44; [NaN],
    which is what non-numeric input has become, is stored as 0 for material
    and color and as 1 for manufacturer.  Bytes 3 to 15 are zero. *)
Theorem writeTag_truncates (s : NfcService.t) (rid : nat) (script : list Reply)
    (mc cc fc : JsNumber) (d : list Z) :
  Scenario.ready s rid ->
  Scenario.auth_success script ->
  exists m c f,
    exec (NfcService.writeTag mc cc (Some fc)) (script ++ [Resolved d]) s
    = (s,
       Scenario.auth_calls rid 4
         (NfcService.key_type_a (NfcService.readers s !! rid)) script
         ++ [WriteBlock rid 4 ([m; c; f] ++ replicate 13 0) 16],
       Returned true) /\
    (forall z, mc = JInt z -> z < 0 \/ 255 < z -> m = z mod 256) /\
    (forall z, cc = JInt z -> z < 0 \/ 255 < z -> c = z mod 256) /\
    (forall z, fc = JInt z -> z < 0 \/ 255 < z -> f = z mod 256) /\
    (mc = JInt 300 -> m = 44) /\
    (mc = JNaN -> m = 0) /\
    (cc = JNaN -> c = 0) /\
    (fc = JNaN -> f = 1).
Proof.
  intros Hready Hauth.
  exists (to_uint8 (number_or mc 0)), (to_uint8 (number_or cc 0)),
         (to_uint8 (number_or fc 1)).
  split; [apply (writeTag_resolved s rid Hready script mc cc (Some fc) d Hauth)|].
  assert (Hout : forall x z dflt, x = JInt z -> z < 0 \/ 255 < z ->
                   to_uint8 (number_or x dflt) = z mod 256).
  { intros x z dflt -> Hz. unfold number_or, to_uint8.
    destruct (Z.eqb_spec z 0); [lia | reflexivity]. }
  repeat split; try (intros; subst; reflexivity); intros z Hx Hz;
    eapply Hout; eassumption.
Qed.

Lemma writeTag_truncates_witness :
  (exec (NfcService.writeTag (JInt 300) (JInt (-1)) (Some JNaN))
        ([Resolved []] ++ [Resolved []]) Scenario.connected).1.2
  = [Authenticate 0 4 0x60 NfcService.vendor_key;
     WriteBlock 0 4 [44; 255; 1; 0; 0; 0; 0; 0; 0; 0; 0; 0; 0; 0; 0; 0] 16].
Proof.
  destruct (writeTag_truncates Scenario.connected 0 [Resolved []]
              (JInt 300) (JInt (-1)) JNaN [])
    as (m & c & f & Hrun & _ & Hc & _ & Hm & _ & _ & Hf).
  - split; reflexivity.
  - constructor.
  - rewrite Hrun, (Hm eq_refl), (Hc (-1) eq_refl), (Hf eq_refl) by lia.
    reflexivity.
Defined.

(** *** Driver events and the card/UID pair *)

Section SetError.
Import NfcService.
Variables (now : Z) (err : JsVal) (s : NfcService.t).

Lemma _setError_readers : readers (_setError now err s) = readers s.
Proof. unfold _setError. destruct (negb (truthy err)); reflexivity. Qed.

Lemma _setError_currentReader :
  currentReader (_setError now err s) = currentReader s.
Proof. unfold _setError. destruct (negb (truthy err)); reflexivity. Qed.

Lemma _setError_lastUID : lastUID (_setError now err s) = lastUID s.
Proof. unfold _setError. destruct (negb (truthy err)); reflexivity. Qed.

Lemma _setError_busy : _busy (_setError now err s) = _busy s.
Proof. unfold _setError. destruct (negb (truthy err)); reflexivity. Qed.

Lemma _setError_cardPresent : cardPresent (_setError now err s) = cardPresent s.
Proof.
  unfold cardPresent. rewrite _setError_currentReader, _setError_readers.
  reflexivity.
Qed.

End SetError.

Lemma applyEvent_busy now ev s :
  NfcService._busy (NfcService.applyEvent now ev s) = NfcService._busy s.
Proof.
  destruct ev; cbn; rewrite ?_setError_busy;
    try destruct (NfcService.announced _ _); rewrite ?_setError_busy;
    reflexivity.
Qed.

Lemma paired_cleared s :
  NfcService.currentReader s = None -> NfcService.lastUID s = None ->
  Pairing.paired s.
Proof.
  unfold Pairing.paired, NfcService.cardPresent. intros -> ->.
  split; [discriminate | intros [? ?]; discriminate].
Qed.

(** One orderly event keeps the pair. *)
Lemma applyEvent_paired_step (now : Z) (ev : NfcService.DriverEvent)
    (s : NfcService.t) :
  Pairing.bound s ->
  Pairing.paired s ->
  Pairing.orderly s ev ->
  Pairing.paired (NfcService.applyEvent now ev s) /\
  Pairing.bound (NfcService.applyEvent now ev s).
Proof.
  intros Hb Hp Hev.
  destruct ev as [r | rid c | rid | rid err | rid | err];
    cbn [NfcService.applyEvent Pairing.orderly] in *.
  - (* reader appeared *)
    destruct Hev as [Hnone Hcard]. split.
    + unfold Pairing.paired.
      rewrite _setError_cardPresent, _setError_lastUID. cbn.
      unfold NfcService.cardPresent; cbn.
      rewrite lookup_app_r, Nat.sub_diag by lia. cbn. rewrite Hcard, Hnone.
      split.
      * intros H. rewrite bool_decide_eq_true in H. destruct H; discriminate.
      * intros [? H]. discriminate H.
    + intros rid. rewrite _setError_currentReader, _setError_readers. cbn.
      intros [= <-]. rewrite length_app. cbn. lia.
  - (* card inserted *)
    destruct Hev as [Hcur Huid]. pose proof (Hb _ Hcur) as Hlt.
    unfold NfcService.announced. rewrite bool_decide_true by exact Hlt.
    split.
    + unfold Pairing.paired, NfcService.cardPresent. cbn. rewrite Hcur.
      rewrite list_lookup_alter.
      destruct (lookup_lt_is_Some_2 _ _ Hlt) as [r Hr].
      rewrite Hr, decide_True by reflexivity. cbn.
      destruct c as [c|]; [|destruct Huid; discriminate]. cbn.
      split; [intros _; exact Huid | intros _; reflexivity].
    + intros rid'. cbn. rewrite length_alter. apply Hb.
  - (* card removed *)
    pose proof (Hb _ Hev) as Hlt.
    unfold NfcService.announced. rewrite bool_decide_true by exact Hlt.
    split.
    + unfold Pairing.paired, NfcService.cardPresent. cbn. rewrite Hev.
      rewrite list_lookup_alter.
      destruct (lookup_lt_is_Some_2 _ _ Hlt) as [r Hr].
      rewrite Hr, decide_True by reflexivity. cbn.
      split; [discriminate | intros [? ?]; discriminate].
    + intros rid'. cbn. rewrite length_alter. apply Hb.
  - (* reader-scoped error *)
    destruct (NfcService.announced rid s); [|split; assumption]. split.
    + unfold Pairing.paired.
      rewrite _setError_cardPresent, _setError_lastUID. exact Hp.
    + intros rid'. rewrite _setError_currentReader, _setError_readers. apply Hb.
  - (* reader end *)
    destruct (NfcService.announced rid s); [|split; assumption]. split.
    + apply paired_cleared; reflexivity.
    + intros rid'. cbn. discriminate.
  - (* global error *)
    split.
    + unfold Pairing.paired.
      rewrite _setError_cardPresent, _setError_lastUID.
      apply paired_cleared; reflexivity.
    + intros rid'. rewrite _setError_currentReader. cbn. discriminate.
Qed.

Lemma fresh_session_paired :
  Pairing.paired NfcService.new /\ Pairing.bound NfcService.new.
Proof. split; [apply paired_cleared; reflexivity | intros rid; discriminate]. Qed.

(** C6 (as amended).  From a state in which card handle and UID are paired
    and the reader handle, if any, refers to an announced reader (the fresh
    session is such a state), they are paired again after every event of a
    run that is orderly: a reader is announced only while no UID is held,
    and its object has no card attached yet; card insertions and removals
    are reported by the current reader; every inserted card carries a
    non-empty UID.  Reader end, reader-scoped errors and global errors may
    occur anywhere in the run. *)
Theorem applyEvent_keeps_card_uid_paired (now : Z)
    (evs : list NfcService.DriverEvent) (s : NfcService.t) :
  Pairing.orderly_run now s evs ->
  Pairing.bound s ->
  Pairing.paired s ->
  forall k,
    Pairing.paired (Pairing.after now (take k evs) s) /\
    Pairing.bound (Pairing.after now (take k evs) s).
Proof.
  revert s. induction evs as [|ev evs IH]; intros s Hrun Hb Hp k.
  - rewrite take_nil. split; assumption.
  - destruct Hrun as [Hev Hrun].
    destruct (applyEvent_paired_step now ev s Hb Hp Hev) as [Hp' Hb'].
    destruct k as [|k]; [split; assumption|].
    apply (IH _ Hrun Hb' Hp' k).
Qed.

Lemma applyEvent_keeps_card_uid_paired_witness :
  let evs :=
    [NfcService.ReaderAppeared Scenario.acr122;
     NfcService.CardInserted 0 (Some (NfcService.mkCard (Some "04A1B2C3")));
     NfcService.ReaderError 0 (VError "Error" "SCARD_E_NO_SERVICE");
     NfcService.CardRemoved 0;
     NfcService.ReaderAppeared Scenario.acr122;
     NfcService.CardInserted 1 (Some (NfcService.mkCard (Some "04A1B2C3")))] in
  let s := Pairing.after 5 evs NfcService.new in
  Pairing.paired s /\
  NfcService.cardPresent s = true /\ NfcService.lastUID s = Some "04A1B2C3".
Proof.
  cbv zeta. split; [|split; reflexivity].
  match goal with
  | |- Pairing.paired (Pairing.after 5 ?evs _) => change evs with (take 6 evs)
  end.
  apply applyEvent_keeps_card_uid_paired.
  - vm_compute. repeat split; eauto.
  - apply fresh_session_paired.
  - apply fresh_session_paired.
Defined.

(** C6 as stated fails: a card whose payload has no UID leaves a card handle
    on the current reader while the UID stays [null]. *)
Lemma card_without_uid :
  let s := NfcService.applyEvent 5
             (NfcService.CardInserted 0 (Some (NfcService.mkCard None)))
             Scenario.connected in
  NfcService.cardPresent s = true /\
  NfcService.lastUID s = None /\
  ~ Pairing.paired s.
Proof.
  cbv zeta. split; [reflexivity|]. split; [reflexivity|].
  intros [H _]. destruct (H eq_refl). discriminate.
Qed.

(** The other conditions of the discipline are needed as well.  With two
    readers announced, a card reported by the one that is not current sets
    the UID while the current reader has no card, and a removal reported by
    it clears the UID while the current reader keeps its card.  A reader
    announced while a UID is held leaves the UID set and becomes the current
    reader, with no card.  A reader object that arrives with a card attached
    is current with a card and no UID.  (In each run every event but the
    last is orderly.) *)
Lemma pairing_needs_order :
  let tag := Some (NfcService.mkCard (Some "04A1B2C3")) in
  let second := NfcService.mkReader "ACR1252U" None None in
  let run evs := Pairing.after 5 evs NfcService.new in
  let foreign_card :=
    run [NfcService.ReaderAppeared Scenario.acr122;
         NfcService.ReaderAppeared second;
         NfcService.CardInserted 0 tag] in
  let foreign_removal :=
    run [NfcService.ReaderAppeared Scenario.acr122;
         NfcService.ReaderAppeared second;
         NfcService.CardInserted 1 tag;
         NfcService.CardRemoved 0] in
  let late_reader :=
    run [NfcService.ReaderAppeared Scenario.acr122;
         NfcService.CardInserted 0 tag;
         NfcService.ReaderAppeared second] in
  let loaded_reader :=
    run [NfcService.ReaderAppeared (NfcService.mkReader "ACR122U" tag None)] in
  (NfcService.cardPresent foreign_card = false /\
   NfcService.lastUID foreign_card = Some "04A1B2C3") /\
  (NfcService.cardPresent foreign_removal = true /\
   NfcService.lastUID foreign_removal = None) /\
  (NfcService.cardPresent late_reader = false /\
   NfcService.lastUID late_reader = Some "04A1B2C3") /\
  (NfcService.cardPresent loaded_reader = true /\
   NfcService.lastUID loaded_reader = None) /\
  ~ Pairing.paired foreign_card /\
  ~ Pairing.paired foreign_removal /\
  ~ Pairing.paired late_reader /\
  ~ Pairing.paired loaded_reader.
Proof.
  cbv zeta. repeat split; try reflexivity.
  - intros [_ H]. discriminate H. vm_compute. eauto.
  - intros [H _]. destruct (H eq_refl) as [? E]. discriminate E.
  - intros [_ H]. discriminate H. vm_compute. eauto.
  - intros [H _]. destruct (H eq_refl) as [? E]. discriminate E.
Qed.

(** *** The status request *)

(** C7 (as amended).  In the lazy-loading entry point the status request
    changes no variable, so it never constructs the session.  With no session
    it answers [{connected:false, readerName:null, cardPresent:false,
    uid:null}], an object of exactly these four fields; the seven-field
    snapshot is what it answers once a session object exists. *)
Theorem rfid_status_lazy (m : Main.Mem) :
  exists o,
    run Main.rfid_status m = (m, Returned o) /\
    match Main.nfcService m with
    | None =>
        o = [("connected", VBool false); ("readerName", VNull);
             ("cardPresent", VBool false); ("uid", VNull)] /\
        keys o = ["connected"; "readerName"; "cardPresent"; "uid"]
    | Some svc =>
        o = NfcService.getStatus svc /\
        keys o = ["connected"; "readerName"; "cardPresent"; "uid";
                  "errorCode"; "errorMessage"; "errorAt"]
    end.
Proof.
  unfold Main.rfid_status, Main.tryGetNfcService. cbn.
  destruct (Main.nfcService m) as [svc|]; cbn; eexists; repeat split.
Qed.

(** A fresh session object answers the full snapshot, disconnected. *)
Lemma getStatus_new :
  NfcService.getStatus NfcService.new
  = [("connected", VBool false); ("readerName", VNull);
     ("cardPresent", VBool false); ("uid", VNull); ("errorCode", VNull);
     ("errorMessage", VNull); ("errorAt", VNull)].
Proof. reflexivity. Qed.

(** C7 as stated fails in both entry points.  The lazy one answers, with no
    session, an object that lacks [errorCode], [errorMessage] and [errorAt];
    the eager one answers the seven fields but constructs the session to do
    so. *)
Lemma status_snapshot_not_as_stated :
  (exists o,
     (run Main.rfid_status (Main.boot true 0 None None)).2 = Returned o /\
     field "errorCode" o = None /\
     field "errorMessage" o = None /\
     field "errorAt" o = None /\
     keys o <> ["connected"; "readerName"; "cardPresent"; "uid";
                "errorCode"; "errorMessage"; "errorAt"]) /\
  (let before := MainEager.mk None None 0 in
   let after := (run MainEager.rfid_status before).1 in
   MainEager.nfcService before = None /\
   MainEager.constructed after = 1%nat /\
   MainEager.nfcService after = Some NfcService.new).
Proof.
  split.
  - eexists. split; [reflexivity|]. repeat split. discriminate.
  - repeat split.
Qed.

(** *** The session factory *)

Lemma getNfcService_existing (m : Main.Mem) (forceRetry : bool) svc :
  Main.nfcService m = Some svc ->
  run (Main.getNfcService forceRetry) m = (m, Returned tt).
Proof. unfold Main.getNfcService; cbn. intros ->. reflexivity. Qed.

(** C8.  With no session and a recorded construction failure: a non-forced
    request less than 5000 ms after the failure throws [NFC_NOT_CONNECTED]
    and leaves every variable as it was, the attempt counter included; a
    forced request, or one made 5000 ms or more after the failure, enters the
    construction block once.  If construction succeeds the session is stored
    and the backoff variables are cleared; if it throws, the failure time and
    error are recorded anew and [NFC_NOT_CONNECTED] is thrown. *)
Theorem getNfcService_backoff (m : Main.Mem) (forceRetry : bool) :
  Main.nfcService m = None ->
  Main.nfcInitFailedAt m <> 0 ->
  let elapsed := Main.clock m - Main.nfcInitFailedAt m in
  let after := (run (Main.getNfcService forceRetry) m).1 in
  let outcome := (run (Main.getNfcService forceRetry) m).2 in
  (forceRetry = false -> elapsed < 5000 ->
     after = m /\ outcome = Thrown NfcService.not_connected) /\
  (forceRetry = true \/ 5000 <= elapsed ->
     Main.initAttempts after = S (Main.initAttempts m) /\
     match Watch.construction_error m with
     | None =>
         outcome = Returned tt /\
         Main.nfcService after = Some NfcService.new /\
         Main.nfcInitFailedAt after = 0 /\
         Main.nfcInitLastErr after = VNull
     | Some e =>
         outcome = Thrown NfcService.not_connected /\
         Main.nfcService after = None /\
         Main.nfcInitFailedAt after = Main.clock m /\
         Main.nfcInitLastErr after = e
     end).
Proof.
  intros Hnone Hfailed elapsed after outcome.
  subst elapsed after outcome.
  unfold Main.getNfcService, Watch.construction_error, Main.NFC_RETRY_AFTER_MS.
  destruct m as [ctor svc failedAt lastErr busy en loop uid win now req con out n].
  cbn in *. subst svc.
  apply Z.eqb_neq in Hfailed. rewrite Hfailed.
  split.
  - intros -> Hlt. apply Z.ltb_lt in Hlt. rewrite Hlt. cbn. split; reflexivity.
  - intros Hgo.
    assert (negb forceRetry && negb false && (now - failedAt <? 5000) = false)
      as ->.
    { destruct Hgo as [-> | Hge]; [reflexivity|].
      apply Z.ltb_ge in Hge. rewrite Hge. apply andb_false_r. }
    destruct ctor, req, con; cbn; repeat split.
Qed.

Lemma getNfcService_backoff_witness :
  let failed := (run (Main.getNfcService true)
                     (Main.boot true 1000 None (Some (VError "Error" "no pcsc")))).1 in
  let soon := Main.set_environment true 3000 None None failed in
  let later := Main.set_environment true 6000 None None failed in
  run (Main.getNfcService false) soon = (soon, Thrown NfcService.not_connected) /\
  Main.nfcService (run (Main.getNfcService false) later).1 = Some NfcService.new /\
  Main.nfcService (run (Main.getNfcService true) soon).1 = Some NfcService.new.
Proof.
  cbv zeta.
  set (failed := (run (Main.getNfcService true)
                      (Main.boot true 1000 None (Some (VError "Error" "no pcsc")))).1).
  split; [|split].
  - destruct (getNfcService_backoff (Main.set_environment true 3000 None None failed)
                false eq_refl) as [H _]; [cbn; lia|].
    destruct (H eq_refl) as [Ha Ho]; [cbn; lia|].
    rewrite (surjective_pairing (run _ _)), Ha, Ho. reflexivity.
  - destruct (getNfcService_backoff (Main.set_environment true 6000 None None failed)
                false eq_refl) as [_ H]; [cbn; lia|].
    destruct H as [_ H]; [right; cbn; lia|]. apply H.
  - destruct (getNfcService_backoff (Main.set_environment true 3000 None None failed)
                true eq_refl) as [_ H]; [cbn; lia|].
    destruct H as [_ H]; [left; reflexivity|]. apply H.
Defined.

(** *** The request coordinator *)

Lemma toMessageKey_of_message (err : JsVal) (msg : string) :
  truthy err = true -> message_prop err = Some msg -> msg <> "" ->
  Main.toMessageKey err
  = if String.eqb msg "Busy" then "busy"
    else if String.eqb msg "NFC_NOT_CONNECTED" then "nfcNotConnected"
    else if String.eqb msg "NFC_AUTH_FAILED" then "nfcAuthFailed"
    else "unknownError".
Proof.
  unfold Main.toMessageKey. intros -> -> Hne.
  apply String.eqb_neq in Hne. rewrite Hne. reflexivity.
Qed.

Lemma toMessageKey_taxonomy :
  Main.toMessageKey NfcService.busy_error = "busy" /\
  Main.toMessageKey NfcService.not_connected = "nfcNotConnected" /\
  Main.toMessageKey NfcService.auth_failed = "nfcAuthFailed".
Proof. repeat split. Qed.



(** A manual read whose keys are both rejected answers the failure object
    built from the driver's rejection. *)
Lemma rfid_read_keys_rejected m svc rid e1 e2 :
  Main.isBusy m = false -> Main.nfcService m = Some svc ->
  Scenario.ready svc rid ->
  (exec Main.rfid_read [Rejected e1; Rejected e2] m).2
  = Returned (Main.failure_result (or_else e2 NfcService.auth_failed)).
Proof.
  intros Hfree Hsvc [Hcur Hidle].
  destruct m, svc; cbn in *; subst. reflexivity.
Qed.

(** C3 at its failing input.  A reader is connected, a manual read is
    requested, and the driver refuses the vendor key and then the default
    key.  The coordinator answers [messageKey: "unknownError"] with the
    driver's message as detail, not ["nfcAuthFailed"]. *)
Theorem rejected_keys_reported_unknown :
  let s := Loop.steps (Loop.start true 0 None None)
             [Loop.StartupTimer;
              Loop.Driver (NfcService.ReaderAppeared Scenario.acr122);
              Loop.Invoke Loop.RfidRead;
              Loop.Settle 1 (Rejected Scenario.key_refused);
              Loop.Settle 1 (Rejected Scenario.key_refused)] in
  Loop.results s
  = [(1%nat,
      [("success", VBool false);
       ("messageKey", VStr "unknownError");
       ("details", VStr "Authentication failed! Status code: 0x6300")])] /\
  Loop.pool s = [] /\
  Loop.unhandled s = [].
Proof. cbv zeta. repeat split. Qed.

(** The key ["nfcAuthFailed"] is answered only when the last rejection value
    is falsy (or itself carries the message [NFC_AUTH_FAILED]). *)
Lemma rfid_read_auth_failed_key m svc rid e1 e2 :
  Main.isBusy m = false -> Main.nfcService m = Some svc ->
  Scenario.ready svc rid ->
  truthy e2 = false ->
  (exec Main.rfid_read [Rejected e1; Rejected e2] m).2
  = Returned [("success", VBool false); ("messageKey", VStr "nfcAuthFailed");
              ("details", VStr "NFC_AUTH_FAILED")].
Proof.
  intros Hfree Hsvc Hready Hfalsy.
  rewrite (rfid_read_keys_rejected m svc rid e1 e2 Hfree Hsvc Hready).
  unfold or_else. rewrite Hfalsy. reflexivity.
Qed.

(** The write handler end to end: the three payload fields go through
    [parseInt(_, 10)] (the third after [|| 1]) and then through the
    coercions of [writeTag].  The fields are taken where [parseInt10] is
    exact. *)
Lemma rfid_write_resolved m svc rid script a b c d :
  exact_parse a = true -> exact_parse b = true ->
  exact_parse (or_else c (VNum (JInt 1))) = true ->
  Main.isBusy m = false -> Main.nfcService m = Some svc ->
  Scenario.ready svc rid ->
  Scenario.auth_success script ->
  exec (Main.rfid_write a b c) (script ++ [Resolved d]) m
  = (m,
     Scenario.auth_calls rid 4
       (NfcService.key_type_a (NfcService.readers svc !! rid)) script
     ++ [WriteBlock rid 4
           ([to_uint8 (number_or (parseInt10 a) 0);
             to_uint8 (number_or (parseInt10 b) 0);
             to_uint8 (number_or (parseInt10 (or_else c (VNum (JInt 1)))) 1)]
            ++ replicate 13 0) 16],
     Returned [("success", VBool true)]).
Proof.
  intros _ _ _ Hfree Hsvc [Hcur Hidle] Hauth.
  destruct m, svc; cbn in *; subst. destruct Hauth; reflexivity.
Qed.

Lemma parseInt10_samples :
  parseInt10 (VStr "300") = JInt 300 /\
  parseInt10 (VStr "  -12px") = JInt (-12) /\
  parseInt10 (VStr "abc") = JNaN /\
  parseInt10 VUndefined = JNaN /\
  parseInt10 (or_else VUndefined (VNum (JInt 1))) = JInt 1 /\
  parseInt10 (or_else (VStr "") (VNum (JInt 1))) = JInt 1.
Proof. repeat split. Qed.

(** *** The auto-detect tick *)

Lemma run_bind {St A B} (p : Co St A) (f : A -> Co St B) :
  forall s s' a,
    run p s = (s', Returned a) -> run (co_bind p f) s = run (f a) s'.
Proof.
  induction p as [a0 | e | k IH | s0 k IH | c k IH]; intros s s' a Hrun;
    cbn in *; try (injection Hrun as <- <-; reflexivity); try discriminate; eauto.
Qed.

Lemma run_silent (p : Co Main.Mem unit) m m' :
  run p m = (m', Returned tt) -> run (Loop.silent p) m = (m', Returned None).
Proof.
  intros H. unfold Loop.silent, mbind, co_mbind.
  rewrite (run_bind p _ _ _ _ H). reflexivity.
Qed.

Section Tick.
Import Main Scenario Watch.
Variables (m : Mem) (svc : NfcService.t).
Hypothesis Hpoll : polling m svc.

Lemma tick_unchanged : unchanged m svc -> run tick m = (m, Returned tt).
Proof.
  destruct Hpoll as (Hen & Hfree & Hsvc & _).
  unfold unchanged, tick, tryGetNfcService. cbn. rewrite Hen, Hfree, Hsvc. cbn.
  destruct (NfcService.getCurrentUID svc) as [u|]; intros Hu.
  - rewrite bool_decide_false by (intros H; apply H; congruence). reflexivity.
  - rewrite Hu. rewrite bool_decide_false by (intros [? ?]; discriminate).
    reflexivity.
Qed.

Lemma tick_removed :
  NfcService.getCurrentUID svc = None ->
  is_Some (NfcService.nonempty (lastAutoUID m)) ->
  run tick m
  = (notified (auto_status false VNull VNull) (set_lastAutoUID None m),
     Returned tt).
Proof.
  destruct Hpoll as (Hen & Hfree & Hsvc & _).
  unfold tick, tryGetNfcService, notified. cbn. rewrite Hen, Hfree, Hsvc. cbn.
  intros -> Hlast. rewrite bool_decide_true by exact Hlast. cbn.
  destruct (mainWindow m); reflexivity.
Qed.

Variable u : string.
Hypothesis Huid : NfcService.getCurrentUID svc = Some u.
Hypothesis Hnew : lastAutoUID m <> Some u.

Lemma tick_no_reader script :
  NfcService.currentReader svc = None ->
  exec tick script m
  = (notified (auto_status true VNull (VStr "NFC_NOT_CONNECTED")) m, [],
     Returned tt).
Proof.
  destruct Hpoll as (Hen & Hfree & Hsvc & Hidle).
  intros Hcur. unfold tick, tryGetNfcService, notified. cbn.
  rewrite Hen, Hfree, Hsvc. cbn. rewrite Huid.
  rewrite bool_decide_true by congruence.
  destruct m as [ctor s0 failedAt lastErr busy en loop last win now req con out n], svc;
    cbn in *; subst.
  destruct win; reflexivity.
Qed.

Variable rid : nat.
Hypothesis Hcur : NfcService.currentReader svc = Some rid.

Local Abbreviation keyType :=
  (NfcService.key_type_a (NfcService.readers svc !! rid)).

Lemma tick_read_ok script data :
  auth_success script ->
  exec tick (script ++ [Resolved data]) m
  = (notified (auto_status true (VTag (decode data)) VNull)
       (set_lastAutoUID (Some u) m),
     auth_calls rid 4 keyType script ++ [ReadBlock rid 4 16 16],
     Returned tt).
Proof.
  destruct Hpoll as (Hen & Hfree & Hsvc & Hidle).
  intros Hauth. unfold tick, tryGetNfcService, notified. cbn.
  rewrite Hen, Hfree, Hsvc. cbn. rewrite Huid.
  rewrite bool_decide_true by congruence.
  destruct m as [ctor s0 failedAt lastErr busy en loop last win now req con out n], svc;
    cbn in *; subst.
  destruct Hauth, win; reflexivity.
Qed.

Lemma tick_keys_rejected e1 e2 :
  exec tick [Rejected e1; Rejected e2] m
  = (notified
       (auto_status true VNull
          (VStr (message_or_string (or_else e2 NfcService.auth_failed)))) m,
     [Authenticate rid 4 keyType NfcService.vendor_key;
      Authenticate rid 4 keyType NfcService.default_key],
     Returned tt).
Proof.
  destruct Hpoll as (Hen & Hfree & Hsvc & Hidle).
  unfold tick, tryGetNfcService, notified. cbn.
  rewrite Hen, Hfree, Hsvc. cbn. rewrite Huid.
  rewrite bool_decide_true by congruence.
  destruct m as [ctor s0 failedAt lastErr busy en loop last win now req con out n], svc;
    cbn in *; subst.
  destruct e2 as [| |[]|[|[]]|[]|n0 msg|t], win; reflexivity.
Qed.

Lemma tick_read_rejected script e :
  auth_success script -> nullish e = false ->
  exec tick (script ++ [Rejected e]) m
  = (notified (auto_status true VNull (VStr (message_or_string e))) m,
     auth_calls rid 4 keyType script ++ [ReadBlock rid 4 16 16],
     Returned tt).
Proof.
  destruct Hpoll as (Hen & Hfree & Hsvc & Hidle).
  intros Hauth Hn. unfold tick, tryGetNfcService, notified. cbn.
  rewrite Hen, Hfree, Hsvc. cbn. rewrite Huid.
  rewrite bool_decide_true by congruence.
  destruct m as [ctor s0 failedAt lastErr busy en loop last win now req con out n], svc;
    cbn in *; subst.
  destruct Hauth; destruct e as [| |[]|[|[]]|[]|n0 msg|t], win;
    try discriminate Hn; reflexivity.
Qed.

Lemma tick_read_rejected_nullish script e :
  auth_success script -> nullish e = true ->
  exec tick (script ++ [Rejected e]) m
  = (notified
       (auto_status false VNull
          (VStr (message_or_string (nullish_read e "message"))))
       (set_lastAutoUID None m),
     auth_calls rid 4 keyType script ++ [ReadBlock rid 4 16 16],
     Returned tt).
Proof.
  destruct Hpoll as (Hen & Hfree & Hsvc & Hidle).
  intros Hauth Hn. unfold tick, tryGetNfcService, notified. cbn.
  rewrite Hen, Hfree, Hsvc. cbn. rewrite Huid.
  rewrite bool_decide_true by congruence.
  destruct m as [ctor s0 failedAt lastErr busy en loop last win now req con out n], svc;
    cbn in *; subst.
  destruct Hauth; destruct e, win; try discriminate Hn; reflexivity.
Qed.

End Tick.

Lemma watching_polling m svc : Watch.watching m svc -> Watch.polling m svc.
Proof. intros (? & ? & ? & ? & ?). repeat split; assumption. Qed.

(** Any number of ticks that find the UID unchanged leave every variable,
    the notification log included, as it was. *)
Lemma quiet_ticks svc (n : nat) :
  forall s,
    Loop.pool s = [] ->
    Watch.polling (Loop.mem s) svc -> Watch.unchanged (Loop.mem s) svc ->
    Loop.mem (Loop.steps s (replicate n Loop.Tick)) = Loop.mem s /\
    Loop.pool (Loop.steps s (replicate n Loop.Tick)) = [].
Proof.
  induction n as [|n IH]; intros s Hpool Hw Hu; [split; [reflexivity | exact Hpool]|].
  cbn [replicate Loop.steps foldl].
  assert (Loop.mem (Loop.step s Loop.Tick) = Loop.mem s /\
          Loop.pool (Loop.step s Loop.Tick) = []) as [Hm Hp].
  { unfold Loop.step.
    destruct (Main.autoLoop (Loop.mem s)); [|split; [reflexivity | exact Hpool]].
    unfold Loop.spawn, Loop.advance. cbn [Loop.mem].
    rewrite (run_silent _ _ _ (tick_unchanged _ svc Hw Hu)). cbn.
    split; [reflexivity | exact Hpool]. }
  destruct (IH (Loop.step s Loop.Tick)) as [Hm' Hp']; rewrite ?Hm; auto.
  fold (Loop.steps (Loop.step s Loop.Tick) (replicate n Loop.Tick)).
  rewrite Hm', Hm. auto.
Qed.

(** C5 (as amended).  Auto-detect is enabled, a session exists and neither
    busy flag is set.  A notification goes out only while the window exists
    ([Watch.notified]); the variables change in the same way without it.

    A tick that observes the UID it last notified, or none when none was
    last seen, emits nothing and changes nothing, and so does any number of
    such ticks.  A tick that observes no UID after one was last seen emits
    exactly one [{present:false}] and clears the last-seen UID.  A tick that
    observes a UID different from the last-seen one emits exactly one
    notification, when its read has settled:
    - [{present:true, tagData, error:null}] if the read succeeds; the UID
      becomes the last-seen one;
    - [{present:true, tagData:null, error}] if no reader is current (no
      driver call is made then), if both keys are rejected, or if the block
      read is rejected with a value other than [null] and [undefined]; the
      last-seen UID stays as it was, so the next tick finds the UID new again;
    - [{present:false, tagData:null, error}] if the block read is rejected
      with [null] or [undefined]; the last-seen UID is cleared. *)
Theorem tick_notifications (m : Main.Mem) (svc : NfcService.t) :
  Watch.polling m svc ->
  (Watch.unchanged m svc ->
     run Main.tick m = (m, Returned tt) /\
     forall s n, Loop.mem s = m -> Loop.pool s = [] ->
       Loop.mem (Loop.steps s (replicate n Loop.Tick)) = m) /\
  (NfcService.getCurrentUID svc = None ->
   is_Some (NfcService.nonempty (Main.lastAutoUID m)) ->
     run Main.tick m
     = (Watch.notified (Main.auto_status false VNull VNull)
          (Main.set_lastAutoUID None m),
        Returned tt)) /\
  (forall u,
     NfcService.getCurrentUID svc = Some u ->
     Main.lastAutoUID m <> Some u ->
     (NfcService.currentReader svc = None ->
      forall script,
        exec Main.tick script m
        = (Watch.notified
             (Main.auto_status true VNull (VStr "NFC_NOT_CONNECTED")) m,
           [], Returned tt)) /\
     (forall rid,
        NfcService.currentReader svc = Some rid ->
        let keyType := NfcService.key_type_a (NfcService.readers svc !! rid) in
        let read := ReadBlock rid 4 16 16 in
        (forall script data,
           Scenario.auth_success script ->
           exec Main.tick (script ++ [Resolved data]) m
           = (Watch.notified
                (Main.auto_status true (VTag (Watch.decode data)) VNull)
                (Main.set_lastAutoUID (Some u) m),
              Scenario.auth_calls rid 4 keyType script ++ [read],
              Returned tt)) /\
        (forall e1 e2,
           exec Main.tick [Rejected e1; Rejected e2] m
           = (Watch.notified
                (Main.auto_status true VNull
                   (VStr (message_or_string (or_else e2 NfcService.auth_failed))))
                m,
              [Authenticate rid 4 keyType NfcService.vendor_key;
               Authenticate rid 4 keyType NfcService.default_key],
              Returned tt)) /\
        (forall script e,
           Scenario.auth_success script -> nullish e = false ->
           exec Main.tick (script ++ [Rejected e]) m
           = (Watch.notified
                (Main.auto_status true VNull (VStr (message_or_string e))) m,
              Scenario.auth_calls rid 4 keyType script ++ [read],
              Returned tt)) /\
        (forall script e,
           Scenario.auth_success script -> nullish e = true ->
           exec Main.tick (script ++ [Rejected e]) m
           = (Watch.notified
                (Main.auto_status false VNull
                   (VStr (message_or_string (nullish_read e "message"))))
                (Main.set_lastAutoUID None m),
              Scenario.auth_calls rid 4 keyType script ++ [read],
              Returned tt)))).
Proof.
  intros Hw. split; [|split].
  - intros Hu. split; [apply (tick_unchanged m svc Hw Hu)|].
    intros s n <- Hpool. destruct (quiet_ticks svc n s Hpool Hw Hu) as [-> _].
    reflexivity.
  - apply (tick_removed m svc Hw).
  - intros u Huid Hnew. split.
    + intros Hcur script. apply (tick_no_reader m svc Hw u Huid Hnew script Hcur).
    + intros rid Hcur keyType read. split; [|split; [|split]].
      * apply (tick_read_ok m svc Hw u Huid Hnew rid Hcur).
      * apply (tick_keys_rejected m svc Hw u Huid Hnew rid Hcur).
      * apply (tick_read_rejected m svc Hw u Huid Hnew rid Hcur).
      * apply (tick_read_rejected_nullish m svc Hw u Huid Hnew rid Hcur).
Qed.

Lemma tick_notifications_witness :
  let s := Loop.steps (Loop.start true 0 None None)
             [Loop.Invoke (Loop.RfidAuto (VBool true));
              Loop.Driver (NfcService.ReaderAppeared Scenario.acr122);
              Loop.Driver (NfcService.CardInserted 0
                             (Some (NfcService.mkCard (Some "04A1B2C3"))))] in
  let block := [5; 2; 1; 0; 0; 0; 0; 0; 0; 0; 0; 0; 0; 0; 0; 0] in
  let after := (exec Main.tick ([Resolved []] ++ [Resolved block]) (Loop.mem s)).1.1 in
  Main.sent after = [Main.auto_status true (VTag (mkTag 5 2 1 block)) VNull] /\
  Main.lastAutoUID after = Some "04A1B2C3".
Proof.
  cbv zeta.
  set (s := Loop.steps _ _).
  destruct (Main.nfcService (Loop.mem s)) as [svc|] eqn:Hsvc; [|discriminate Hsvc].
  destruct (tick_notifications (Loop.mem s) svc) as (_ & _ & Hnew).
  - repeat split; try reflexivity; [exact Hsvc|].
    vm_compute in Hsvc. injection Hsvc as <-. reflexivity.
  - destruct (Hnew "04A1B2C3") as (_ & Hread).
    + vm_compute in Hsvc. injection Hsvc as <-. reflexivity.
    + discriminate.
    + destruct (Hread 0%nat) as (Hok & _).
      * vm_compute in Hsvc. injection Hsvc as <-. reflexivity.
      * rewrite (Hok [Resolved []] _ (Scenario.vendor_accepted [])).
        split; reflexivity.
Defined.

(** C5 as stated fails: a tag whose keys the driver refuses is read again on
    the next tick, which emits a second [{present:true, ...}] notification
    although the UID it observes has not changed. *)
Lemma tick_renotifies_failed_read :
  let arrive :=
    [Loop.Invoke (Loop.RfidAuto (VBool true));
     Loop.Driver (NfcService.ReaderAppeared Scenario.acr122);
     Loop.Driver (NfcService.CardInserted 0
                    (Some (NfcService.mkCard (Some "04A1B2C3"))))] in
  let refused t :=
    [Loop.Tick; Loop.Settle t (Rejected Scenario.key_refused);
     Loop.Settle t (Rejected Scenario.key_refused)] in
  let uid s := Main.nfcService (Loop.mem s) ≫= NfcService.getCurrentUID in
  let note :=
    Main.auto_status true VNull
      (VStr "Authentication failed! Status code: 0x6300") in
  let s1 := Loop.steps (Loop.start true 0 None None) (arrive ++ refused 1%nat) in
  let s2 := Loop.steps s1 (refused 2%nat) in
  uid s1 = Some "04A1B2C3" /\
  uid s2 = Some "04A1B2C3" /\
  Main.sent (Loop.mem s1) = [note] /\
  Main.sent (Loop.mem s2) = [note; note] /\
  Main.sent (Loop.mem s2) <> Main.sent (Loop.mem s1).
Proof. cbv zeta. repeat split. vm_compute. discriminate. Qed.

(** *** Mutual exclusion *)

Lemma safe_run {A} (p : Co Main.Mem A) :
  forall m,
    Lock.safe p m ->
    match run p m with
    | (m', Suspended _ k) =>
        Lock.held m' /\ forall r m'', Lock.held m'' -> Lock.safe (k r) m''
    | (m', _) => Lock.idle m'
    end.
Proof.
  induction p as [a | e | k IH | m' k IH | c k IH]; intros m Hs; cbn in *.
  - exact Hs.
  - exact Hs.
  - apply IH, Hs.
  - apply IH, Hs.
  - exact Hs.
Qed.

Section Handlers.
Import Main Loop Lock.

Lemma write_safe a b c m : idle m -> safe (replying (rfid_write a b c)) m.
Proof. intros H. break_state. unfold replying, rfid_write. walk_lock. Qed.

Lemma auto_safe e m : idle m -> safe (replying (rfid_auto e)) m.
Proof. intros H. break_state. unfold replying, rfid_auto. walk_lock. Qed.

Lemma handler_safe req m : idle m -> safe (handler req) m.
Proof.
  intros H. destruct req as [a b c | | | e | p | p]; cbn [handler].
  - apply write_safe, H.
  - break_state. unfold replying, rfid_read. walk_lock.
  - break_state. unfold replying, rfid_status. walk_lock.
  - apply auto_safe, H.
  - unfold rfid_write_bare. destruct (nullish p); [exact H | apply write_safe, H].
  - unfold rfid_auto_bare. destruct (nullish p); [exact H | apply auto_safe, H].
Qed.

Lemma tick_safe m : idle m -> safe (silent tick) m.
Proof. intros H. break_state. unfold silent, tick. walk_lock. Qed.

Lemma startup_safe m : idle m -> safe (silent startup_init) m.
Proof. intros H. break_state. unfold silent, startup_init. walk_lock. Qed.

Lemma read_when_busy m :
  isBusy m = true -> run (handler RfidRead) m = (m, Returned (Some busy_result)).
Proof. intros H. cbn. rewrite H. reflexivity. Qed.

Lemma write_when_busy a b c m :
  isBusy m = true ->
  run (handler (RfidWrite a b c)) m = (m, Returned (Some busy_result)).
Proof. intros H. cbn. rewrite H. reflexivity. Qed.

Lemma tick_when_busy m :
  isBusy m = true -> run (silent tick) m = (m, Returned None).
Proof. intros H. cbn. rewrite H. destruct (autoEnabled m); reflexivity. Qed.

Lemma auto_when_held e m : held m -> passes (replying (rfid_auto e)) m.
Proof.
  intros H.
  assert (exists m' o, run (replying (rfid_auto e)) m = (m', Returned o) /\ held m')
    as (m' & o & Hrun & Hh).
  { break_state. unfold replying, rfid_auto. cbn.
    repeat (case_match; cbn); eexists _, _; (split; [reflexivity|]);
      unfold held; cbn; eauto. }
  unfold passes. rewrite Hrun. exact Hh.
Qed.

Lemma handler_when_held req m : held m -> passes (handler req) m.
Proof.
  intros H. destruct req as [a b c | | | e | p | p]; cbn [handler].
  - unfold passes. change (replying (rfid_write a b c)) with (handler (RfidWrite a b c)).
    rewrite write_when_busy by apply H. exact H.
  - unfold passes. change (replying rfid_read) with (handler RfidRead).
    rewrite read_when_busy by apply H. exact H.
  - unfold passes. cbn. destruct (tryGetNfcService m); cbn; exact H.
  - apply auto_when_held, H.
  - unfold rfid_write_bare. destruct (nullish p); [exact H|].
    unfold passes.
    change (replying (rfid_write VUndefined VUndefined VUndefined))
      with (handler (RfidWrite VUndefined VUndefined VUndefined)).
    rewrite write_when_busy by apply H. exact H.
  - unfold rfid_auto_bare. destruct (nullish p); [exact H|].
    apply auto_when_held, H.
Qed.

Lemma startup_when_held m :
  held m -> run (silent startup_init) m = (m, Returned None).
Proof. intros H. break_state. reflexivity. Qed.

Lemma spawn_passed p s :
  match run p (mem s) with
  | (_, Suspended _ _) => True
  | (m', _) => pool (spawn p s) = pool s /\ mem (spawn p s) = m'
  end.
Proof.
  unfold spawn, advance. cbn.
  destruct (run p (mem s)) as [m' [[o|] | e | c k]]; cbn; auto.
Qed.

Lemma spawn_idle p s : pool s = [] -> safe p (mem s) -> inv (spawn p s).
Proof.
  intros Hpool Hsafe. unfold spawn, advance. cbn.
  pose proof (safe_run p (mem s) Hsafe) as Hrun.
  destruct (run p (mem s)) as [m' [[o|] | e | c k]]; unfold inv; cbn;
    rewrite Hpool; cbn; exact Hrun.
Qed.

Lemma spawn_returned p s m' o :
  run p (mem s) = (m', Returned o) ->
  pool (spawn p s) = pool s /\ mem (spawn p s) = m' /\
  unhandled (spawn p s) = unhandled s /\
  results (spawn p s)
  = results s ++ match o with Some r => [(next_tid s, r)] | None => [] end.
Proof.
  intros Hrun. unfold spawn, advance. cbn. rewrite Hrun.
  destruct o; cbn; rewrite ?app_nil_r; repeat split.
Qed.

Lemma inv_cases s :
  inv s ->
  (pool s = [] /\ idle (mem s)) \/
  (exists t, pool s = [t] /\ held (mem s) /\
             forall r m', held m' -> safe (resume t r) m').
Proof.
  unfold inv. destruct (pool s) as [|t [|]]; [left | right | intros []]; eauto.
Qed.

Lemma inv_held s t :
  pool s = [t] -> held (mem s) ->
  (forall r m', held m' -> safe (resume t r) m') -> inv s.
Proof. unfold inv. intros -> ? ?. eauto. Qed.

Lemma inv_spawn p s :
  (forall m, idle m -> safe p m) ->
  (forall m, held m -> passes p m) ->
  inv s -> inv (spawn p s).
Proof.
  intros Hidle Hheld Hinv.
  destruct (inv_cases s Hinv) as [[Hpool Hi] | (t & Hpool & Hh & Hk)].
  - apply spawn_idle; auto.
  - pose proof (Hheld _ Hh) as Hpass. unfold passes in Hpass.
    pose proof (spawn_passed p s) as Hsp.
    destruct (run p (mem s)) as [m' [o | e | c k]]; [| |contradiction];
      destruct Hsp as [Hp Hm]; apply (inv_held _ t); rewrite ?Hp, ?Hm; auto.
Qed.

Lemma inv_step s ev : inv s -> inv (step s ev).
Proof.
  intros Hinv. destruct ev as [req | | | d | t r | w now req con]; cbn.
  - apply inv_spawn; auto using handler_safe, handler_when_held.
  - destruct (autoLoop (mem s)); [|exact Hinv].
    apply inv_spawn; auto using tick_safe.
    intros m Hh. unfold passes. rewrite tick_when_busy by apply Hh. exact Hh.
  - apply inv_spawn; auto using startup_safe.
    intros m Hh. unfold passes. rewrite startup_when_held by exact Hh. exact Hh.
  - destruct (nfcService (mem s)) as [svc|] eqn:Hsvc; [|exact Hinv].
    destruct (inv_cases s Hinv)
      as [[Hpool [Hi1 Hi2]] | (t & Hpool & [Hh1 Hh2] & Hk)].
    + unfold inv; cbn. rewrite Hpool. split; cbn; [exact Hi1|].
      intros svc' [= <-]. rewrite applyEvent_busy. auto.
    + apply (inv_held _ t); cbn; auto. split; cbn; [exact Hh1|].
      destruct Hh2 as (svc' & Hsvc' & Hb). rewrite Hsvc in Hsvc'. simplify_eq.
      eexists; split; [reflexivity|]. rewrite applyEvent_busy. exact Hb.
  - destruct (inv_cases s Hinv) as [[Hpool Hi] | (t0 & Hpool & Hh & Hk)];
      rewrite Hpool; unfold find_task, drop_task; cbn; [exact Hinv|].
    case_decide; cbn; [|exact Hinv].
    rewrite decide_False by (intros Hne; apply Hne; assumption). cbn.
    unfold advance; cbn.
    pose proof (safe_run _ _ (Hk r _ Hh)) as Hrun.
    destruct (run (resume t0 r) (mem s)) as [m' [[o|] | e | c k]];
      unfold inv; cbn; exact Hrun.
  - destruct (inv_cases s Hinv)
      as [[Hpool [Hi1 Hi2]] | (t & Hpool & [Hh1 Hh2] & Hk)].
    + unfold inv; cbn. rewrite Hpool. split; cbn; auto.
    + apply (inv_held _ t); cbn; auto. split; cbn; auto.
Qed.

Lemma inv_start w now req con : inv (start w now req con).
Proof. unfold inv; cbn. split; [reflexivity | discriminate]. Qed.

Lemma inv_steps evs : forall s, inv s -> inv (steps s evs).
Proof.
  induction evs as [|ev evs IH]; intros s Hinv; [exact Hinv|].
  cbn. apply IH, inv_step, Hinv.
Qed.

End Handlers.

(** C1.  In every state the event loop can reach, by any interleaving of
    manual requests, auto-detect switches, timer ticks, driver events and
    driver completions, at most one authenticate/read/write sequence is in
    flight, and while one is in flight the busy flag is set.  With the flag
    set, a manual read or write is answered [{success:false,
    messageKey:"busy"}] at once, and a tick does nothing: none of them
    issues a driver call or changes a variable. *)
Theorem loop_mutual_exclusion (window : bool) (now : Z) (req con : option JsVal)
    (evs : list Loop.Event) :
  let s := Loop.steps (Loop.start window now req con) evs in
  (Loop.in_flight s <= 1)%nat /\
  (Loop.in_flight s = 1%nat -> Main.isBusy (Loop.mem s) = true) /\
  (Main.isBusy (Loop.mem s) = true ->
     (forall r,
        r = Loop.RfidRead \/ (exists a b c, r = Loop.RfidWrite a b c) ->
        let s' := Loop.step s (Loop.Invoke r) in
        Loop.pool s' = Loop.pool s /\
        Loop.mem s' = Loop.mem s /\
        Loop.unhandled s' = Loop.unhandled s /\
        Loop.results s'
        = Loop.results s ++ [(Loop.next_tid s, Main.busy_result)]) /\
     (let s' := Loop.step s Loop.Tick in
      Loop.pool s' = Loop.pool s /\
      Loop.mem s' = Loop.mem s /\
      Loop.unhandled s' = Loop.unhandled s /\
      Loop.results s' = Loop.results s)).
Proof.
  intros s.
  assert (Hinv : Lock.inv s) by apply inv_steps, inv_start.
  split; [|split].
  - unfold Loop.in_flight.
    destruct (inv_cases s Hinv) as [[-> _] | (t & -> & _)]; cbn; lia.
  - unfold Loop.in_flight.
    destruct (inv_cases s Hinv) as [[-> _] | (t & _ & [Hb _] & _)];
      [discriminate | intros _; exact Hb].
  - intros Hbusy. split.
    + intros r Hr s'. subst s'. unfold Loop.step.
      assert (run (Loop.handler r) (Loop.mem s)
              = (Loop.mem s, Returned (Some Main.busy_result))) as Hrun.
      { destruct Hr as [-> | (a & b & c & ->)];
          [apply read_when_busy | apply write_when_busy]; exact Hbusy. }
      destruct (spawn_returned _ s _ _ Hrun) as (Hp & Hm & Hu & Hres). auto.
    + cbv zeta. unfold Loop.step.
      destruct (Main.autoLoop (Loop.mem s)); [|auto].
      destruct (spawn_returned _ s _ _ (tick_when_busy _ Hbusy))
        as (Hp & Hm & Hu & Hres).
      rewrite app_nil_r in Hres. auto.
Qed.

Lemma loop_mutual_exclusion_witness :
  let s := Loop.steps (Loop.start true 0 None None)
             [Loop.StartupTimer;
              Loop.Driver (NfcService.ReaderAppeared Scenario.acr122);
              Loop.Invoke Loop.RfidRead] in
  Loop.in_flight s = 1%nat /\
  Loop.in_flight (Loop.step s (Loop.Invoke Loop.RfidRead)) = 1%nat /\
  Loop.results (Loop.step s (Loop.Invoke Loop.RfidRead))
  = [(2%nat, Main.busy_result)] /\
  Loop.step s Loop.Tick = s.
Proof.
  cbv zeta.
  destruct (loop_mutual_exclusion true 0 None None
              [Loop.StartupTimer;
               Loop.Driver (NfcService.ReaderAppeared Scenario.acr122);
               Loop.Invoke Loop.RfidRead]) as (_ & _ & Hbusy).
  destruct (Hbusy eq_refl) as [Hreq _].
  destruct (Hreq Loop.RfidRead (or_introl eq_refl)) as (Hp & _ & _ & Hres).
  split; [reflexivity|]. split; [|split].
  - unfold Loop.in_flight. rewrite Hp. reflexivity.
  - rewrite Hres. reflexivity.
  - reflexivity.
Defined.

(* ===================================================================== *)
(** ** 9. Further properties of the code *)
(* ===================================================================== *)

(** *** The error classifier *)

Lemma toUpperCase_app a b :
  NfcService.toUpperCase (a +:+ b)
  = NfcService.toUpperCase a +:+ NfcService.toUpperCase b.
Proof.
  induction a as [|c a IH]; simpl; [reflexivity | rewrite IH; reflexivity].
Qed.

Lemma prefix_app x post : String.prefix x (x +:+ post) = true.
Proof.
  induction x as [|c x IH]; simpl; [destruct post; reflexivity|].
  destruct (Ascii.ascii_dec c c); [exact IH | congruence].
Qed.

Lemma includes_prefix s x :
  String.prefix x s = true -> NfcService.includes s x = true.
Proof. destruct s; cbn [NfcService.includes]; intros ->; reflexivity. Qed.

Lemma includes_app pre x post :
  NfcService.includes (pre +:+ (x +:+ post)) x = true.
Proof.
  induction pre as [|c pre IH].
  - change ("" +:+ (x +:+ post)) with (x +:+ post).
    apply includes_prefix, prefix_app.
  - change (String c pre +:+ (x +:+ post)) with (String c (pre +:+ (x +:+ post))).
    cbn [NfcService.includes]. rewrite IH. apply orb_true_r.
Qed.

Lemma toUpperCase_nonempty x : NfcService.toUpperCase x <> "" -> x <> "".
Proof. intros H ->. apply H. reflexivity. Qed.

Lemma app_nonempty pre x post : x <> "" -> pre +:+ (x +:+ post) <> "".
Proof.
  intros Hx H. destruct pre; [destruct x; [congruence|]|]; simpl in H; discriminate H.
Qed.

(** X1.  A message that contains one of the two service-not-running
    identifiers, in any letter case and anywhere in the text, is classified
    [PCSC_SERVICE_NOT_RUNNING], whether or not it also contains a no-readers
    identifier; the message itself and the time are stored with the code. *)
Theorem service_not_running_any_case (pre x post : string) (err : JsVal) :
  NfcService.toUpperCase x = "SCARD_E_NO_SERVICE" \/
  NfcService.toUpperCase x = "SERVICE NOT RUNNING" ->
  (exists name, err = VError name (pre +:+ (x +:+ post))) \/
  err = VStr (pre +:+ (x +:+ post)) ->
  forall now s,
    let s' := NfcService._setError now err s in
    NfcService.lastErrorCode s' = Some "PCSC_SERVICE_NOT_RUNNING" /\
    NfcService.lastError s' = Some (pre +:+ (x +:+ post)) /\
    NfcService.lastErrorAt s' = Some now.
Proof.
  intros Hx Herr now s.
  assert (Hne : pre +:+ (x +:+ post) <> "").
  { apply app_nonempty, toUpperCase_nonempty.
    destruct Hx as [-> | ->]; discriminate. }
  assert (Hmsg : message_or_string err = pre +:+ (x +:+ post) /\ truthy err = true).
  { apply String.eqb_neq in Hne.
    destruct Herr as [[name ->] | ->]; unfold message_or_string; cbn;
      rewrite ?Hne; cbn; split; reflexivity. }
  destruct Hmsg as [Hmsg Ht]. cbv zeta.
  unfold NfcService._setError. rewrite Ht, Hmsg. cbn [negb].
  rewrite !toUpperCase_app.
  destruct Hx as [-> | ->].
  - rewrite includes_app. cbn. repeat split.
  - rewrite (includes_app _ "SERVICE NOT RUNNING"), orb_true_r. cbn. repeat split.
Qed.

Lemma service_not_running_any_case_witness :
  Steady.code_of
    (VError "Error" "pcsc: Scard_E_No_Service (and no readers available)")
  = Some "PCSC_SERVICE_NOT_RUNNING".
Proof.
  destruct (service_not_running_any_case "pcsc: " "Scard_E_No_Service"
              " (and no readers available)"
              (VError "Error" "pcsc: Scard_E_No_Service (and no readers available)")
              (or_introl eq_refl) (or_introl (ex_intro _ "Error" eq_refl))
              0 NfcService.new) as [H _].
  exact H.
Defined.

(** *** Session invariants under arbitrary driver events *)

Lemma _setError_triple now err s :
  Steady.error_triple (NfcService._setError now err s).
Proof.
  unfold NfcService._setError, Steady.error_triple.
  destruct (negb (truthy err)); cbn; [left; repeat split|right].
  repeat split; eauto.
  repeat case_match; eauto 6.
Qed.

Lemma applyEvent_error_triple now ev s :
  Steady.error_triple s -> Steady.error_triple (NfcService.applyEvent now ev s).
Proof.
  intros H. destruct ev; cbn [NfcService.applyEvent];
    try destruct (NfcService.announced _ _);
    first [apply _setError_triple | exact H].
Qed.

Lemma applyEvent_linked now ev s :
  Steady.linked s -> Steady.linked (NfcService.applyEvent now ev s).
Proof.
  intros [[Hc1 Hc2] Hb]. unfold Steady.linked, Pairing.bound.
  destruct ev as [r | rid c | rid | rid err | rid | err];
    cbn [NfcService.applyEvent];
    try destruct (NfcService.announced _ _);
    rewrite ?_setError_currentReader, ?_setError_readers;
    unfold NfcService._setError; try destruct (negb (truthy _)); cbn;
    rewrite ?length_alter, ?length_app; cbn;
    (split; [split; first [assumption | by eauto | intros [? ?]; discriminate
                          | discriminate]
            | first [assumption
                    | intros ? [= <-]; lia
                    | intros ?; discriminate ]]).
Qed.

Lemma replay_preserves (P : NfcService.t -> Prop) :
  (forall now ev s, P s -> P (NfcService.applyEvent now ev s)) ->
  forall log s, P s -> P (Steady.replay log s).
Proof.
  intros Hstep. unfold Steady.replay.
  induction log as [|[now ev] log IH]; intros s Hs; [exact Hs|].
  cbn. apply IH, Hstep, Hs.
Qed.

Lemma new_linked : Steady.linked NfcService.new.
Proof.
  split; [split; [discriminate | intros [? ?]; discriminate]
         | intros rid; discriminate].
Qed.

(** X2.  After any log of driver events, in any order and from any reader,
    the three error fields of the session are all [null] or all set, and the
    code is one of [PCSC_SERVICE_NOT_RUNNING], [NO_READERS], [UNKNOWN]. *)
Theorem replay_error_triple (log : list (Z * NfcService.DriverEvent)) :
  Steady.error_triple (Steady.replay log NfcService.new).
Proof.
  apply (replay_preserves _ applyEvent_error_triple).
  left. repeat split.
Qed.

(** X3.  After any log of driver events, [isConnected] is set exactly when a
    current reader is held, and the current reader is one of the reader
    objects the driver announced. *)
Theorem replay_linked (log : list (Z * NfcService.DriverEvent)) :
  let s := Steady.replay log NfcService.new in
  (NfcService.isConnected s = true <-> is_Some (NfcService.currentReader s)) /\
  (forall rid, NfcService.currentReader s = Some rid ->
               is_Some (NfcService.readers s !! rid)).
Proof.
  cbv zeta.
  destruct (replay_preserves _ applyEvent_linked log _ new_linked) as [Hc Hb].
  split; [exact Hc|]. intros rid Hrid. apply lookup_lt_is_Some_2, Hb, Hrid.
Qed.

(** X4.  After any log of driver events the status snapshot is consistent:
    when it reports [connected: false] it reports [readerName: null] and
    [cardPresent: false]; when it reports [connected: true] the reader name
    is a string. *)
Theorem status_consistent (log : list (Z * NfcService.DriverEvent)) :
  let s := Steady.replay log NfcService.new in
  let st := NfcService.getStatus s in
  field "connected" st = Some (VBool (NfcService.isConnected s)) /\
  match NfcService.isConnected s with
  | true => exists name, field "readerName" st = Some (VStr name)
  | false =>
      field "readerName" st = Some VNull /\
      field "cardPresent" st = Some (VBool false)
  end.
Proof.
  cbv zeta.
  pose proof (replay_preserves _ applyEvent_linked log _ new_linked) as [[H1 H2] Hb].
  set (s := Steady.replay log NfcService.new) in *.
  split; [reflexivity|].
  cbn. unfold NfcService.cardPresent.
  destruct (NfcService.isConnected s).
  - destruct (H1 eq_refl) as [rid Hrid]. rewrite Hrid.
    destruct (lookup_lt_is_Some_2 _ _ (Hb _ Hrid)) as [r ->]. cbn. eauto.
  - destruct (NfcService.currentReader s) as [rid|] eqn:Hrid.
    + assert (false = true) by (apply H2; eauto). discriminate.
    + split; reflexivity.
Qed.

(** *** The session lock *)

Lemma finally_releases {A} (fn : Co NfcService.t A) :
  forall script s,
    match exec (try_finally fn (modify (NfcService.set_busy false))) script s with
    | (_, _, Suspended _ _) => True
    | (s', _, _) => NfcService._busy s' = false
    end.
Proof.
  induction fn as [a | e | k IH | s0 k IH | c k IH]; intros script s; cbn.
  - reflexivity.
  - reflexivity.
  - apply IH.
  - apply IH.
  - destruct script as [|r script]; [exact I|].
    specialize (IH r script s).
    destruct (exec _ script s) as [[s' cs] o]. exact IH.
Qed.

(** X5.  [_withLock] on a held lock throws [Busy] without running the body,
    issuing a driver call or changing the session.  On a free lock, however
    the body ends - by returning or by throwing, after any number of driver
    replies - the lock is free again afterwards; and while the call is still
    waiting for the driver the lock was free when it started. *)
Theorem withLock_releases {A} (fn : Co NfcService.t A) (script : list Reply)
    (s : NfcService.t) :
  match exec (NfcService._withLock fn) script s with
  | (_, _, Suspended _ _) => NfcService._busy s = false
  | (s', calls, outcome) =>
      if NfcService._busy s
      then s' = s /\ calls = [] /\ outcome = Thrown NfcService.busy_error
      else NfcService._busy s' = false
  end.
Proof.
  unfold NfcService._withLock. cbn.
  destruct (NfcService._busy s) eqn:Hb; cbn; [repeat split|].
  pose proof (finally_releases fn script (NfcService.set_busy true s)) as H.
  destruct (exec _ script (NfcService.set_busy true s)) as [[s' cs] [a | e | c k]];
    auto.
Qed.

(** *** Operations on a session without a reader *)

(** X6.  Without a current reader, [readTag], [writeTag] and
    [_authenticateBlock] throw [NFC_NOT_CONNECTED] at once: no driver call is
    made and the session is left as it was, also when the lock is held (the
    reader check comes before the lock). *)
Theorem operations_need_reader (s : NfcService.t) (script : list Reply)
    (mc cc : JsNumber) (fc : option JsNumber) :
  NfcService.currentReader s = None ->
  exec NfcService.readTag script s = (s, [], Thrown NfcService.not_connected) /\
  exec (NfcService.writeTag mc cc fc) script s
  = (s, [], Thrown NfcService.not_connected) /\
  exec (NfcService._authenticateBlock 4) script s
  = (s, [], Thrown NfcService.not_connected).
Proof.
  intros H. unfold NfcService.readTag, NfcService.writeTag,
    NfcService._authenticateBlock. cbn. rewrite H. repeat split.
Qed.

Lemma operations_need_reader_witness :
  exec NfcService.readTag [Resolved []; Resolved [1; 2; 3]]
       (NfcService.set_busy true NfcService.new)
  = (NfcService.set_busy true NfcService.new, [], Thrown NfcService.not_connected).
Proof.
  apply (operations_need_reader (NfcService.set_busy true NfcService.new)
           [Resolved []; Resolved [1; 2; 3]] JNaN JNaN None eq_refl).
Defined.

(** *** Short reads *)

(** X7.  When the driver resolves the block read with fewer than three
    bytes, [readTag] still succeeds: a missing material or color byte reads
    as 0, the missing manufacturer byte as 1, and the raw data is what the
    driver returned. *)
Theorem readTag_short_block (s : NfcService.t) (rid : nat) (script : list Reply)
    (data : list Z) :
  Scenario.ready s rid ->
  Scenario.auth_success script ->
  (length data < 3)%nat ->
  (exec NfcService.readTag (script ++ [Resolved data]) s).2
  = Returned {| material := default 0 (data !! 0%nat);
                color := default 0 (data !! 1%nat);
                manufacturer := 1;
                rawData := data |}.
Proof.
  intros Hready Hauth Hlen.
  rewrite (readTag_resolved s rid Hready script data Hauth). cbn.
  unfold NfcService.byte_or.
  destruct data as [|b0 [|b1 [|b2 rest]]]; cbn in *; try lia;
    repeat case_match; subst; try reflexivity;
    repeat match goal with H : (_ =? 0) = true |- _ => apply Z.eqb_eq in H; subst end;
    reflexivity.
Qed.

Lemma readTag_short_block_witness :
  (exec NfcService.readTag ([Resolved []] ++ [Resolved [7]]) Scenario.connected).2
  = Returned (mkTag 7 0 1 [7]).
Proof.
  apply (readTag_short_block Scenario.connected 0 [Resolved []] [7]).
  - split; reflexivity.
  - constructor.
  - cbn; lia.
Defined.

(** *** Message keys *)

(** X8.  [toMessageKey] matches the whole message, case-sensitively: an
    error whose message is exactly [Busy], [NFC_NOT_CONNECTED] or
    [NFC_AUTH_FAILED] gets the corresponding key, every other non-empty
    message gets ["unknownError"]; a thrown string is treated like an error
    with that message, and [null] and [undefined] get ["unknownError"]. *)
Theorem toMessageKey_exact (name msg : string) :
  msg <> "" ->
  let key := Main.toMessageKey (VError name msg) in
  (key = "busy" <-> msg = "Busy") /\
  (key = "nfcNotConnected" <-> msg = "NFC_NOT_CONNECTED") /\
  (key = "nfcAuthFailed" <-> msg = "NFC_AUTH_FAILED") /\
  (key = "unknownError" <->
     msg <> "Busy" /\ msg <> "NFC_NOT_CONNECTED" /\ msg <> "NFC_AUTH_FAILED") /\
  Main.toMessageKey (VStr msg) = key /\
  Main.toMessageKey VNull = "unknownError" /\
  Main.toMessageKey VUndefined = "unknownError".
Proof.
  intros Hne key. subst key.
  rewrite (toMessageKey_of_message (VError name msg) msg eq_refl eq_refl Hne).
  assert (Main.toMessageKey (VStr msg)
          = if String.eqb msg "Busy" then "busy"
            else if String.eqb msg "NFC_NOT_CONNECTED" then "nfcNotConnected"
            else if String.eqb msg "NFC_AUTH_FAILED" then "nfcAuthFailed"
            else "unknownError") as ->.
  { unfold Main.toMessageKey. cbn. apply String.eqb_neq in Hne. rewrite Hne.
    reflexivity. }
  destruct (String.eqb_spec msg "Busy") as [-> | H1];
    [repeat split; try discriminate; try tauto; intros (? & ? & ?); congruence|].
  destruct (String.eqb_spec msg "NFC_NOT_CONNECTED") as [-> | H2];
    [repeat split; try discriminate; try tauto; intros (? & ? & ?); congruence|].
  destruct (String.eqb_spec msg "NFC_AUTH_FAILED") as [-> | H3];
    [repeat split; try discriminate; try tauto; intros (? & ? & ?); congruence|].
  repeat split; try discriminate; try tauto; try congruence.
Qed.

Lemma toMessageKey_exact_witness :
  Main.toMessageKey (VError "Error" "busy") = "unknownError".
Proof.
  destruct (toMessageKey_exact "Error" "busy") as (_ & _ & _ & [_ H] & _).
  - discriminate.
  - apply H. repeat split; discriminate.
Defined.

(** *** Round trip through the handlers *)

Lemma rfid_read_resolved m svc rid script data :
  Main.isBusy m = false -> Main.nfcService m = Some svc ->
  Scenario.ready svc rid ->
  Scenario.auth_success script ->
  exec Main.rfid_read (script ++ [Resolved data]) m
  = (m,
     Scenario.auth_calls rid 4
       (NfcService.key_type_a (NfcService.readers svc !! rid)) script
     ++ [ReadBlock rid 4 16 16],
     Returned [("success", VBool true); ("data", VTag (Watch.decode data))]).
Proof.
  intros Hfree Hsvc [Hcur Hidle] Hauth.
  destruct m, svc; cbn in *; subst. destruct Hauth; reflexivity.
Qed.

(** X9.  Round trip through the two IPC handlers, for all codes the block
    can hold: with material and color in 0..255 and manufacturer in 1..255
    sent as numbers, ['rfid-write'] writes the three bytes followed by
    thirteen zeros to block 4 and answers [{success:true}]; ['rfid-read']
    answered with that buffer returns the same three codes.  Both leave every
    variable as it was. *)
Theorem handlers_roundtrip (m : Main.Mem) (svc : NfcService.t) (rid : nat)
    (script_w script_r : list Reply) (d : list Z) (a b c : Z) :
  Main.isBusy m = false -> Main.nfcService m = Some svc ->
  Scenario.ready svc rid ->
  Scenario.auth_success script_w -> Scenario.auth_success script_r ->
  0 <= a <= 255 -> 0 <= b <= 255 -> 1 <= c <= 255 ->
  let keyType := NfcService.key_type_a (NfcService.readers svc !! rid) in
  let buf := [a; b; c] ++ replicate 13 0 in
  exec (Main.rfid_write (VNum (JInt a)) (VNum (JInt b)) (VNum (JInt c)))
       (script_w ++ [Resolved d]) m
  = (m, Scenario.auth_calls rid 4 keyType script_w ++ [WriteBlock rid 4 buf 16],
     Returned [("success", VBool true)]) /\
  exec Main.rfid_read (script_r ++ [Resolved buf]) m
  = (m, Scenario.auth_calls rid 4 keyType script_r ++ [ReadBlock rid 4 16 16],
     Returned [("success", VBool true);
               ("data", VTag (mkTag a b c buf))]).
Proof.
  intros Hfree Hsvc Hready Hw Hr Ha Hb Hc keyType buf. subst keyType buf.
  assert (Hbyte : forall z dflt, 0 <= z <= 255 -> (z = 0 -> dflt = 0) ->
            to_uint8 (number_or (JInt z) dflt) = z).
  { intros z dflt Hz H0. unfold number_or, to_uint8.
    destruct (Z.eqb_spec z 0) as [-> | Hn]; [rewrite H0; reflexivity|].
    apply Z.mod_small. lia. }
  split.
  - assert (Hexact : forall z, 0 <= z <= 255 -> exact_parse (VNum (JInt z)) = true).
    { intros z Hz. unfold exact_parse, in_range, safe_integer.
      apply Z.ltb_lt. change (2 ^ 53) with 9007199254740992. lia. }
    assert (or_else (VNum (JInt c)) (VNum (JInt 1)) = VNum (JInt c)) as Hc1.
    { unfold or_else. cbn. destruct (Z.eqb_spec c 0); [lia | reflexivity]. }
    rewrite (rfid_write_resolved m svc rid script_w _ _ _ d);
      [| apply Hexact; lia | apply Hexact; lia | rewrite Hc1; apply Hexact; lia
       | exact Hfree | exact Hsvc | exact Hready | exact Hw].
    rewrite Hc1. cbn [parseInt10]. rewrite !Hbyte by (first [lia | reflexivity]). reflexivity.
  - rewrite (rfid_read_resolved m svc rid script_r _ Hfree Hsvc Hready Hr).
    unfold Watch.decode, NfcService.byte_or. cbn.
    destruct (Z.eqb_spec a 0) as [-> |], (Z.eqb_spec b 0) as [-> |],
      (Z.eqb_spec c 0); try lia; reflexivity.
Qed.

Lemma handlers_roundtrip_witness :
  (exec Main.rfid_read
        ([Resolved []] ++ [Resolved ([0; 255; 200] ++ replicate 13 0)])
        Steady.online).2
  = Returned [("success", VBool true);
              ("data", VTag (mkTag 0 255 200 ([0; 255; 200] ++ replicate 13 0)))].
Proof.
  destruct (handlers_roundtrip Steady.online Scenario.connected 0
              [Resolved []] [Resolved []] [] 0 255 200) as [_ H];
    [reflexivity | reflexivity | split; reflexivity | constructor | constructor
    | lia | lia | lia | ].
  rewrite H. reflexivity.
Defined.

(** *** The factory, first use *)

(** X10.  With no session and no failure on record, [getNfcService] enters
    the construction block whatever [forceRetry] and the clock are.  The
    class is cached as soon as [require] has succeeded, also when the
    constructor then throws.  Success stores the session; a failure records
    the time and the error and is reported as [NFC_NOT_CONNECTED]. *)
Theorem getNfcService_first_use (m : Main.Mem) (forceRetry : bool) :
  Main.nfcService m = None ->
  Main.nfcInitFailedAt m = 0 ->
  let after := (run (Main.getNfcService forceRetry) m).1 in
  let outcome := (run (Main.getNfcService forceRetry) m).2 in
  Main.initAttempts after = S (Main.initAttempts m) /\
  Main.NFCServiceCtor after
  = (Main.NFCServiceCtor m || bool_decide (Main.requireThrows m = None)) /\
  match Watch.construction_error m with
  | None =>
      outcome = Returned tt /\ Main.nfcService after = Some NfcService.new /\
      Main.nfcInitFailedAt after = 0
  | Some e =>
      outcome = Thrown NfcService.not_connected /\
      Main.nfcService after = None /\
      Main.nfcInitFailedAt after = Main.clock m /\
      Main.nfcInitLastErr after = e
  end.
Proof.
  intros Hnone H0 after outcome. subst after outcome.
  unfold Main.getNfcService, Watch.construction_error.
  destruct m as [ctor svc failedAt lastErr busy en loop uid win now req con out n].
  cbn in *. subst. destruct forceRetry, ctor, req, con; cbn; repeat split.
Qed.

Lemma getNfcService_first_use_witness :
  let after := (run (Main.getNfcService false) Steady.no_driver).1 in
  Main.initAttempts after = 1%nat /\
  Main.NFCServiceCtor after = true /\
  Main.nfcInitFailedAt after = 1000.
Proof.
  cbv zeta.
  destruct (getNfcService_first_use Steady.no_driver false eq_refl eq_refl)
    as (Ha & Hc & _ & _ & Hf & _).
  repeat split; assumption.
Defined.

(** *** Manual requests without a driver *)

(** X11.  A manual read or write while the session cannot be constructed
    answers [{success:false, messageKey:"nfcNotConnected",
    details:"NFC_NOT_CONNECTED"}]: the underlying construction error is
    recorded in [nfcInitLastErr] but not passed on.  Each such request, read
    or write, makes one construction attempt (it overrides the backoff),
    restarts the backoff window at the current time and releases the busy
    flag. *)
Theorem rfid_read_without_driver (m : Main.Mem) (e : JsVal) (a b c : JsVal) :
  Main.isBusy m = false ->
  Main.nfcService m = None ->
  Watch.construction_error m = Some e ->
  let failure :=
    [("success", VBool false); ("messageKey", VStr "nfcNotConnected");
     ("details", VStr "NFC_NOT_CONNECTED")] in
  let after := (run Main.rfid_read m).1 in
  run Main.rfid_read m = (after, Returned failure) /\
  run (Main.rfid_write a b c) m = (after, Returned failure) /\
  Main.isBusy after = false /\
  Main.nfcService after = None /\
  Main.initAttempts after = S (Main.initAttempts m) /\
  Main.nfcInitFailedAt after = Main.clock m /\
  Main.nfcInitLastErr after = e.
Proof.
  intros Hfree Hnone Herr. unfold Watch.construction_error in Herr.
  destruct m as [ctor svc failedAt lastErr busy en loop uid win now req con out n].
  cbn in *. subst.
  destruct ctor, req, con; simplify_eq; cbn; repeat split.
Qed.

Lemma rfid_read_without_driver_witness :
  (run Main.rfid_read Steady.no_driver).2
  = Returned [("success", VBool false); ("messageKey", VStr "nfcNotConnected");
              ("details", VStr "NFC_NOT_CONNECTED")] /\
  Main.nfcInitLastErr (run Main.rfid_read Steady.no_driver).1
  = VError "Error" "SCARD_E_NO_SERVICE".
Proof.
  destruct (rfid_read_without_driver Steady.no_driver
              (VError "Error" "SCARD_E_NO_SERVICE") VNull VNull VNull
              eq_refl eq_refl eq_refl) as (H & _ & _ & _ & _ & _ & He).
  split; [rewrite H; reflexivity | exact He].
Defined.

(** *** The reader goes away during a read *)

Lemma find_task_single t c k :
  Loop.find_task t [Loop.mkTask t c k] = Some (Loop.mkTask t c k).
Proof. unfold Loop.find_task. cbn. rewrite decide_True by reflexivity. reflexivity. Qed.

Lemma drop_task_single t c k : Loop.drop_task t [Loop.mkTask t c k] = [].
Proof.
  unfold Loop.drop_task. cbn.
  rewrite decide_False by (intros H; apply H; reflexivity). reflexivity.
Qed.

(** X12.  If the current reader ends, or the driver reports a global error,
    while a manual read is waiting for the first [authenticate] call, then
    once that call resolves the read is abandoned without a block read: the
    request is answered ["unknownError"] with the text of the [TypeError]
    raised on the missing reader, the busy flag is released and nothing is
    left in flight. *)
Theorem reader_lost_during_read (s : Loop.Sys) (svc : NfcService.t) (rid : nat)
    (d : list Z) (gone : NfcService.DriverEvent) :
  Loop.pool s = [] ->
  Main.isBusy (Loop.mem s) = false ->
  Main.nfcService (Loop.mem s) = Some svc ->
  Scenario.ready svc rid ->
  (rid < length (NfcService.readers svc))%nat ->
  gone = NfcService.ReaderEnd rid \/ (exists err, gone = NfcService.NfcError err) ->
  let t := Loop.next_tid s in
  let s' := Loop.steps s [Loop.Invoke Loop.RfidRead; Loop.Driver gone;
                          Loop.Settle t (Resolved d)] in
  Loop.pool s' = [] /\
  Main.isBusy (Loop.mem s') = false /\
  Loop.results s'
  = Loop.results s ++
    [(t, [("success", VBool false); ("messageKey", VStr "unknownError");
          ("details", VStr "Cannot read properties of null (reading 'read')")])].
Proof.
  intros Hpool Hfree Hsvc [Hcur Hidle] Hlt Hgone. cbv zeta.
  assert (Hloss :
    forall now s0, NfcService.currentReader s0 = Some rid ->
      (rid < length (NfcService.readers s0))%nat ->
      NfcService.currentReader (NfcService.applyEvent now gone s0) = None /\
      NfcService._busy (NfcService.applyEvent now gone s0) = NfcService._busy s0).
  { intros now s0 Hc Hl. split; [|apply applyEvent_busy].
    destruct Hgone as [-> | [err ->]]; cbn [NfcService.applyEvent].
    - unfold NfcService.announced. rewrite bool_decide_true by exact Hl.
      reflexivity.
    - rewrite _setError_currentReader. reflexivity. }
  destruct s as [m pool next res unh].
  destruct m as [ctor s failedAt lastErr busy en loop uid win now req con out n].
  destruct svc as [rs conn cur lu le lec lea b]. cbn in Hpool, Hfree, Hsvc, Hcur, Hidle, Hlt.
  subst.
  unfold Loop.steps.
  cbn -[NfcService.applyEvent Loop.find_task Loop.drop_task].
  rewrite find_task_single, drop_task_single.
  cbn -[NfcService.applyEvent].
  match goal with
  | |- context [NfcService.applyEvent ?t gone ?s0] =>
      destruct (Hloss t s0 eq_refl Hlt) as [Hc Hb];
      destruct (NfcService.applyEvent t gone s0) as [rs' conn' cur' lu' le' lec' lea' b']
  end.
  cbn in Hc, Hb. subst. cbn. repeat split.
Qed.

Lemma reader_lost_during_read_witness :
  let s := Loop.mkSys Steady.online [] 0 [] [] in
  Loop.results
    (Loop.steps s [Loop.Invoke Loop.RfidRead;
                   Loop.Driver (NfcService.ReaderEnd 0);
                   Loop.Settle 0 (Resolved [])])
  = [(0%nat,
      [("success", VBool false); ("messageKey", VStr "unknownError");
       ("details", VStr "Cannot read properties of null (reading 'read')")])].
Proof.
  cbv zeta.
  destruct (reader_lost_during_read (Loop.mkSys Steady.online [] 0 [] [])
              Scenario.connected 0 [] (NfcService.ReaderEnd 0))
    as (_ & _ & H);
    [reflexivity | reflexivity | reflexivity | split; reflexivity | cbn; lia
    | left; reflexivity | ].
  exact H.
Defined.

(** *** What handlers end with when they throw *)














(** *** The session object is a singleton *)

Lemma stays_refl m : Steady.stays m m.
Proof. intros H. split; [exact H | reflexivity]. Qed.

Lemma stays_trans m0 m1 m2 :
  Steady.stays m0 m1 -> Steady.stays m1 m2 -> Steady.stays m0 m2.
Proof.
  intros H1 H2 H0. destruct (H1 H0) as [Hs1 Ha1]. destruct (H2 Hs1) as [Hs2 Ha2].
  split; [exact Hs2 | congruence].
Qed.

Lemma settled_run {A} (p : Co Main.Mem A) m0 :
  forall m,
    Steady.settled m0 p m ->
    Steady.stays m0 (run p m).1 /\
    match (run p m).2 with
    | Suspended _ k =>
        Steady.has_session (run p m).1 /\
        forall r m', Steady.has_session m' -> Steady.settled m' (k r) m'
    | _ => True
    end.
Proof.
  induction p as [a | e | k IH | m' k IH | c k IH]; intros m H; cbn in *.
  - split; auto.
  - split; auto.
  - apply IH, H.
  - apply IH, H.
  - destruct H as (? & ? & ?). auto.
Qed.

Lemma settled_ret_bind {A B} (p : Co Main.Mem A) (g : A -> B) :
  forall m0 m, Steady.settled m0 p m ->
               Steady.settled m0 (co_bind p (fun a => CoRet (g a))) m.
Proof.
  induction p as [a | e | k IH | m' k IH | c k IH]; intros m0 m H; cbn in *;
    eauto.
  destruct H as (? & ? & ?). eauto.
Qed.

Lemma rfid_read_settled m : Steady.settled m Main.rfid_read m.
Proof. break_state. unfold Main.rfid_read. walk_settled. Qed.
Lemma rfid_write_settled a b c m : Steady.settled m (Main.rfid_write a b c) m.
Proof. break_state. unfold Main.rfid_write. walk_settled. Qed.
Lemma rfid_auto_settled e m : Steady.settled m (Main.rfid_auto e) m.
Proof. break_state. unfold Main.rfid_auto. walk_settled. Qed.
Lemma rfid_status_settled m : Steady.settled m Main.rfid_status m.
Proof. break_state. unfold Main.rfid_status. walk_settled. Qed.
Lemma tick_settled m : Steady.settled m Main.tick m.
Proof. break_state. unfold Main.tick. walk_settled. Qed.
Lemma startup_settled m : Steady.settled m Main.startup_init m.
Proof. break_state. unfold Main.startup_init. walk_settled. Qed.

Lemma handler_settled req m : Steady.settled m (Loop.handler req) m.
Proof.
  destruct req as [a b c | | | e | p | p];
    unfold Loop.handler, Loop.replying, mbind, co_mbind, mret, co_mret;
    apply settled_ret_bind;
    auto using rfid_read_settled, rfid_write_settled, rfid_auto_settled,
      rfid_status_settled.
  - unfold Main.rfid_write_bare. destruct (nullish p);
      [apply stays_refl | apply rfid_write_settled].
  - unfold Main.rfid_auto_bare. destruct (nullish p);
      [apply stays_refl | apply rfid_auto_settled].
Qed.

Lemma silent_settled p m :
  Steady.settled m p m -> Steady.settled m (Loop.silent p) m.
Proof.
  unfold Loop.silent, mbind, co_mbind, mret, co_mret.
  apply (settled_ret_bind p (fun _ => None)).
Qed.

Lemma advance_settled t p s :
  Steady.settled_pool s -> Steady.settled (Loop.mem s) p (Loop.mem s) ->
  Steady.settled_pool (Loop.advance t p s) /\
  Steady.stays (Loop.mem s) (Loop.mem (Loop.advance t p s)).
Proof.
  intros [Hne Hp] Hs. unfold Loop.advance.
  destruct (settled_run p _ _ Hs) as [Hst Hk].
  destruct (run p (Loop.mem s)) as [m' [[o|] | e | c k]]; cbn in *;
    (split; [split; cbn|exact Hst]); auto;
    try (intros H; apply Hst, Hne, H).
  - intros _. apply Hk.
  - apply Forall_app. split; [exact Hp | repeat constructor; apply Hk].
Qed.

Lemma spawn_settled p s :
  Steady.settled_pool s -> (forall m, Steady.settled m p m) ->
  Steady.settled_pool (Loop.spawn p s) /\
  Steady.stays (Loop.mem s) (Loop.mem (Loop.spawn p s)).
Proof.
  intros Hs Hp. unfold Loop.spawn.
  apply (advance_settled _ p
           (Loop.mkSys (Loop.mem s) (Loop.pool s) (S (Loop.next_tid s))
                       (Loop.results s) (Loop.unhandled s))); [exact Hs | apply Hp].
Qed.

Lemma step_settled s ev :
  Steady.settled_pool s ->
  Steady.settled_pool (Loop.step s ev) /\
  Steady.stays (Loop.mem s) (Loop.mem (Loop.step s ev)).
Proof.
  intros Hs. destruct ev as [req | | | d | t r | w now req con]; cbn.
  - apply spawn_settled; [exact Hs | apply handler_settled].
  - destruct (Main.autoLoop _); [|split; [exact Hs | apply stays_refl]].
    apply spawn_settled; [exact Hs | intros; apply silent_settled, tick_settled].
  - apply spawn_settled; [exact Hs | intros; apply silent_settled, startup_settled].
  - destruct (Main.nfcService _) eqn:E; [|split; [exact Hs | apply stays_refl]].
    destruct Hs as [Hne Hp]. split; [split; cbn; [|exact Hp]|].
    + intros _. unfold Steady.has_session. cbn. eauto.
    + intros _. split; [unfold Steady.has_session; cbn; eauto | reflexivity].
  - destruct (Loop.find_task t (Loop.pool s)) as [task|] eqn:Hf;
      [|split; [exact Hs | apply stays_refl]].
    destruct Hs as [Hne Hp].
    assert (Hin : task ∈ Loop.pool s).
    { unfold Loop.find_task in Hf.
      apply head_Some_elem_of, list_elem_of_filter in Hf as [_ Hin]. exact Hin. }
    assert (Hsess : Steady.has_session (Loop.mem s)).
    { apply Hne. intros E. rewrite E in Hin. inversion Hin. }
    apply (advance_settled t (Loop.resume task r)
             (Loop.mkSys (Loop.mem s) (Loop.drop_task t (Loop.pool s))
                         (Loop.next_tid s) (Loop.results s) (Loop.unhandled s))).
    + split; cbn; [intros _; exact Hsess|]. unfold Loop.drop_task.
      rewrite Forall_forall in *. intros x Hx.
      apply list_elem_of_filter in Hx as [_ Hx]. auto.
    + cbn. rewrite Forall_forall in Hp. apply (Hp _ Hin), Hsess.
  - destruct Hs as [Hne Hp]. split; [split; cbn; [|exact Hp]|].
    + intros H. apply Hne in H. exact H.
    + intros H. split; [exact H | reflexivity].
Qed.

(** X14.  The session object is a singleton: once [nfcService] holds a
    session, every later state of the event loop still holds one and the
    construction block is never entered again, whatever happens. *)
Theorem session_is_singleton (window : bool) (now : Z) (req con : option JsVal)
    (before after : list Loop.Event) :
  let s1 := Loop.steps (Loop.start window now req con) before in
  let s2 := Loop.steps s1 after in
  match Main.nfcService (Loop.mem s1) with
  | Some _ =>
      is_Some (Main.nfcService (Loop.mem s2)) /\
      Main.initAttempts (Loop.mem s2) = Main.initAttempts (Loop.mem s1)
  | None => True
  end.
Proof.
  cbv zeta.
  assert (H : forall evs s, Steady.settled_pool s ->
            Steady.settled_pool (Loop.steps s evs) /\
            Steady.stays (Loop.mem s) (Loop.mem (Loop.steps s evs))).
  { unfold Loop.steps.
    induction evs as [|ev evs IH]; intros s Hs; [split; [exact Hs | apply stays_refl]|].
    cbn. destruct (step_settled s ev Hs) as [Hs' Hst].
    destruct (IH _ Hs') as [Hs'' Hst']. split; [exact Hs''|].
    eapply stays_trans; eassumption. }
  destruct (H before (Loop.start window now req con)) as [H1 _].
  { split; [intros E; contradiction | constructor]. }
  destruct (H after _ H1) as [_ Hst].
  destruct (Main.nfcService (Loop.mem (Loop.steps _ before))) eqn:E; [|exact I].
  apply Hst. unfold Steady.has_session. rewrite E. eauto.
Qed.

(** *** The busy flags are released *)

(** X15.  In every reachable state of the event loop in which no handler is
    waiting for the driver, both busy flags are clear: the coordinator's
    [isBusy] and the session's [_busy].  Every exit path of every handler has
    released them. *)
Theorem busy_cleared_when_idle (window : bool) (now : Z) (req con : option JsVal)
    (evs : list Loop.Event) :
  let s := Loop.steps (Loop.start window now req con) evs in
  match Loop.pool s with
  | [] =>
      Main.isBusy (Loop.mem s) = false /\
      match Main.nfcService (Loop.mem s) with
      | Some svc => NfcService._busy svc = false
      | None => True
      end
  | _ :: _ => True
  end.
Proof.
  cbv zeta.
  pose proof (inv_steps evs _ (inv_start window now req con)) as Hinv.
  destruct (inv_cases _ Hinv) as [[-> [Hb Hs]] | (t & -> & _)]; [|exact I].
  split; [exact Hb|]. destruct (Main.nfcService _); [apply Hs; reflexivity | exact I].
Qed.

(** *** Every handler finishes within three driver calls *)

Lemma handler_within req m : Steady.within 3 (Loop.handler req) m.
Proof.
  destruct req as [a b c | | | e | p | p]; break_state;
    unfold Loop.handler, Loop.replying, Main.rfid_write_bare, Main.rfid_auto_bare;
    try destruct (nullish p); try exact I;
    unfold Main.rfid_read, Main.rfid_write, Main.rfid_status, Main.rfid_auto;
    walk_within.
Qed.

Lemma tick_within m : Steady.within 3 (Loop.silent Main.tick) m.
Proof. break_state. unfold Loop.silent, Main.tick. walk_within. Qed.

Lemma within_exec {A} (p : Co Main.Mem A) :
  forall n m script,
    Steady.within n p m -> (n <= length script)%nat ->
    match exec p script m with
    | (_, _, Suspended _ _) => False
    | (_, calls, _) => (length calls <= n)%nat
    end.
Proof.
  induction p as [a | e | k IH | m' k IH | c k IH]; intros n m script Hw Hlen;
    cbn in *.
  - lia.
  - lia.
  - apply IH; assumption.
  - apply IH; assumption.
  - destruct n as [|n]; [destruct Hw|].
    destruct script as [|r script]; cbn in Hlen; [lia|].
    specialize (IH r n m script (Hw r m) ltac:(lia)).
    destruct (exec (k r) script m) as [[m1 cs] [a | e | c' k']]; cbn; first [lia | exact IH].
Qed.

(** X16.  Every IPC handler, and the timer callback, finishes after at most
    three driver calls (two [authenticate], one block read or write),
    whatever the driver replies and whatever else happens between the calls;
    run against a script of at least three replies a handler has finished,
    having issued at most three calls. *)
Theorem handlers_finish_in_three_calls (req : Loop.Request) (m : Main.Mem)
    (script : list Reply) :
  (3 <= length script)%nat ->
  Steady.within 3 (Loop.handler req) m /\
  Steady.within 3 (Loop.silent Main.tick) m /\
  match exec (Loop.handler req) script m with
  | (_, _, Suspended _ _) => False
  | (_, calls, _) => (length calls <= 3)%nat
  end.
Proof.
  intros Hlen. split; [apply handler_within|]. split; [apply tick_within|].
  apply within_exec; [apply handler_within | exact Hlen].
Qed.

Lemma handlers_finish_in_three_calls_witness :
  (exec (Loop.handler Loop.RfidRead)
        [Rejected Scenario.key_refused; Resolved []; Rejected VNull]
        Steady.online).1.2
  = [Authenticate 0 4 0x60 NfcService.vendor_key;
     Authenticate 0 4 0x60 NfcService.default_key;
     ReadBlock 0 4 16 16].
Proof.
  destruct (handlers_finish_in_three_calls Loop.RfidRead Steady.online
              [Rejected Scenario.key_refused; Resolved []; Rejected VNull])
    as (_ & _ & H); [cbn; lia|].
  destruct (exec _ _ _) as [[m' calls] o] eqn:E.
  vm_compute in E. injection E as _ <- _. reflexivity.
Defined.

(** *** What handlers leave alone *)

(** X17.  The timer callback and the status handler never touch the session
    factory: whenever they let other code run, the cached class, the backoff
    variables, the attempt counter and the presence of a session are as they
    found them.  A tick that finds auto-detect disabled, or no session, does
    nothing at all. *)
Theorem tick_keeps_factory (m : Main.Mem) :
  Steady.keeps Steady.factory_state m Main.tick m /\
  Steady.keeps Steady.factory_state m Main.rfid_status m /\
  (if Main.autoEnabled m
   then match Main.nfcService m with
        | None => run Main.tick m = (m, Returned tt)
        | Some _ => True
        end
   else run Main.tick m = (m, Returned tt)).
Proof.
  split; [|split].
  - break_state. unfold Main.tick, Steady.factory_state. walk_keeps.
  - break_state. unfold Main.rfid_status, Steady.factory_state. walk_keeps.
  - unfold Main.tick, Main.tryGetNfcService. cbn.
    destruct (Main.autoEnabled m); cbn; [|reflexivity].
    destruct (Main.nfcService m); [exact I|].
    destruct (Main.isBusy m); reflexivity.
Qed.

(** X18.  Manual read, manual write, the status request and the startup
    timer never touch auto-detect: they send no [rfid-auto-status] message
    and leave [autoEnabled], the interval and the last-seen UID as they are,
    on every path. *)
Theorem manual_requests_keep_auto_state (m : Main.Mem) (a b c : JsVal) :
  Steady.keeps Steady.auto_state m Main.rfid_read m /\
  Steady.keeps Steady.auto_state m (Main.rfid_write a b c) m /\
  Steady.keeps Steady.auto_state m Main.rfid_status m /\
  Steady.keeps Steady.auto_state m Main.startup_init m.
Proof.
  repeat split; break_state;
    unfold Main.rfid_read, Main.rfid_write, Main.rfid_status, Main.startup_init,
      Steady.auto_state; walk_keeps.
Qed.
(** *** Switching auto-detect *)

(** X19.  Disabling auto-detect, in any state of the event loop: the loop
    variables are reset ([autoEnabled] and the interval cleared, last-seen
    UID forgotten), exactly one [{present:false}] notification is sent if
    the window exists, the request is answered [{enabled:false}], an
    operation in flight is left alone, and a tick event after it changes
    nothing. *)
Theorem rfid_auto_disable (s : Loop.Sys) (enable : JsVal) :
  truthy enable = false ->
  let s' := Loop.step s (Loop.Invoke (Loop.RfidAuto enable)) in
  let m := Loop.mem s in
  Loop.mem s'
  = Main.set_sent
      (if Main.mainWindow m
       then Main.sent m ++ [Main.auto_status false VNull VNull]
       else Main.sent m)
      (Main.set_lastAutoUID None
         (Main.set_autoLoop false (Main.set_autoEnabled false m))) /\
  Loop.pool s' = Loop.pool s /\
  Loop.results s' = Loop.results s ++ [(Loop.next_tid s, [("enabled", VBool false)])] /\
  Loop.mem (Loop.step s' Loop.Tick) = Loop.mem s' /\
  Loop.pool (Loop.step s' Loop.Tick) = Loop.pool s'.
Proof.
  intros Hoff. cbv zeta.
  destruct s as [m pool next res unh].
  destruct m as [ctor svc failedAt lastErr busy en loop uid win now req con out n].
  unfold Loop.step, Loop.spawn, Loop.advance, Loop.handler, Loop.replying,
    Main.rfid_auto. cbn. rewrite Hoff. cbn.
  destruct loop, win; cbn; repeat split.
Qed.

Lemma rfid_auto_disable_witness :
  let s := Loop.steps (Loop.start true 0 None None)
             [Loop.Invoke (Loop.RfidAuto (VBool true));
              Loop.Invoke (Loop.RfidAuto (VBool false))] in
  Main.autoLoop (Loop.mem s) = false /\
  Main.sent (Loop.mem s) = [Main.auto_status false VNull VNull].
Proof.
  cbv zeta.
  destruct (rfid_auto_disable
              (Loop.steps (Loop.start true 0 None None)
                 [Loop.Invoke (Loop.RfidAuto (VBool true))])
              (VBool false) eq_refl) as [Hm _].
  change (Loop.steps (Loop.start true 0 None None)
            [Loop.Invoke (Loop.RfidAuto (VBool true));
             Loop.Invoke (Loop.RfidAuto (VBool false))])
    with (Loop.step (Loop.steps (Loop.start true 0 None None)
                       [Loop.Invoke (Loop.RfidAuto (VBool true))])
                    (Loop.Invoke (Loop.RfidAuto (VBool false)))).
  rewrite Hm. split; reflexivity.
Defined.

(** X20.  Enabling auto-detect while the session cannot be constructed is
    answered [{enabled:false, messageKey:"nfcNotConnected"}]: auto-detect
    ends up disabled, a running interval is stopped, the last-seen UID is
    cleared, one [{present:false, error:"NFC_NOT_CONNECTED"}] notification is
    sent if the window exists, and one construction attempt was made. *)
Theorem rfid_auto_enable_without_driver (m : Main.Mem) (enable e : JsVal) :
  truthy enable = true ->
  Main.nfcService m = None ->
  Watch.construction_error m = Some e ->
  let after := (run (Main.rfid_auto enable) m).1 in
  (run (Main.rfid_auto enable) m).2
  = Returned [("enabled", VBool false); ("messageKey", VStr "nfcNotConnected")] /\
  Main.autoEnabled after = false /\
  Main.autoLoop after = false /\
  Main.lastAutoUID after = None /\
  Main.isBusy after = Main.isBusy m /\
  Main.sent after
  = (if Main.mainWindow m
     then Main.sent m ++ [Main.auto_status false VNull (VStr "NFC_NOT_CONNECTED")]
     else Main.sent m) /\
  Main.initAttempts after = S (Main.initAttempts m).
Proof.
  intros Hon Hnone Herr. unfold Watch.construction_error in Herr.
  destruct m as [ctor svc failedAt lastErr busy en loop uid win now req con out n].
  cbn in *. subst. unfold Main.rfid_auto. cbn. rewrite Hon. cbn.
  destruct ctor, req, con, loop, win; simplify_eq; cbn; repeat split.
Qed.

Lemma rfid_auto_enable_without_driver_witness :
  let after := (run (Main.rfid_auto (VBool true)) Steady.no_driver).1 in
  Main.autoEnabled after = false /\
  Main.sent after
  = [Main.auto_status false VNull (VStr "NFC_NOT_CONNECTED")].
Proof.
  cbv zeta.
  destruct (rfid_auto_enable_without_driver Steady.no_driver (VBool true)
              (VError "Error" "SCARD_E_NO_SERVICE") eq_refl eq_refl eq_refl)
    as (_ & Hen & _ & _ & _ & Hs & _).
  split; assumption.
Defined.

(** X21.  Enabling auto-detect with a tag already on the reader reads it at
    once, notifies [{present:true, tagData}] and records the UID as last
    seen, so the first tick after it finds nothing new and emits nothing:
    the tag is announced once, not twice. *)
Theorem rfid_auto_enable_then_tick (m : Main.Mem) (svc : NfcService.t)
    (rid : nat) (u : string) (enable : JsVal) (script : list Reply)
    (data : list Z) :
  truthy enable = true ->
  Main.isBusy m = false ->
  Main.mainWindow m = true ->
  Main.nfcService m = Some svc ->
  Scenario.ready svc rid ->
  NfcService.getCurrentUID svc = Some u ->
  Scenario.auth_success script ->
  let after :=
    Main.set_sent
      (Main.sent m ++ [Main.auto_status true (VTag (Watch.decode data)) VNull])
      (Main.set_lastAutoUID (Some u)
         (Main.set_autoLoop true (Main.set_autoEnabled true m))) in
  exec (Main.rfid_auto enable) (script ++ [Resolved data]) m
  = (after,
     Scenario.auth_calls rid 4
       (NfcService.key_type_a (NfcService.readers svc !! rid)) script
     ++ [ReadBlock rid 4 16 16],
     Returned [("enabled", VBool true)]) /\
  run Main.tick after = (after, Returned tt).
Proof.
  intros Hon Hfree Hwin Hsvc [Hcur Hidle] Huid Hauth after. split.
  - subst after. unfold NfcService.getCurrentUID in Huid.
    destruct m as [ctor s failedAt lastErr busy en loop uid win now req con out n].
    destruct svc as [rs conn cur [u'|] le lec lea b]; [|discriminate Huid].
    destruct u' as [|ch u']; [discriminate Huid|].
    cbn in *. injection Huid as <-. subst.
    unfold Main.rfid_auto. cbn. rewrite Hon.
    destruct Hauth, loop; reflexivity.
  - apply (tick_unchanged after svc).
    + subst after. repeat split; cbn; assumption.
    + subst after. unfold Watch.unchanged. rewrite Huid. reflexivity.
Qed.

Lemma rfid_auto_enable_then_tick_witness :
  Main.sent
    (exec (Main.rfid_auto (VBool true))
          ([Resolved []] ++ [Resolved [5; 2; 1]]) Steady.tagged).1.1
  = [Main.auto_status true (VTag (mkTag 5 2 1 [5; 2; 1])) VNull].
Proof.
  destruct (rfid_auto_enable_then_tick Steady.tagged
              (NfcService.applyEvent 0
                 (NfcService.CardInserted 0
                    (Some (NfcService.mkCard (Some "04A1B2C3"))))
                 Scenario.connected)
              0 "04A1B2C3" (VBool true) [Resolved []] [5; 2; 1])
    as [H _];
    [reflexivity | reflexivity | reflexivity | reflexivity | split; reflexivity
    | reflexivity | constructor | ].
  rewrite H. reflexivity.
Defined.

(** *** A read rejected with [null] or [undefined] *)

(** X22.  When the block read of a tick is rejected with [null] or
    [undefined], reading [message] off that value throws inside the inner
    handler; the outer handler then reports the tag as absent: exactly one
    [{present:false}] notification carrying the [TypeError] text, and the
    last-seen UID is cleared.  The tick still ends normally. *)
Theorem tick_nullish_rejection (m : Main.Mem) (svc : NfcService.t) (rid : nat)
    (u : string) (script : list Reply) (e : JsVal) :
  Watch.watching m svc ->
  NfcService.getCurrentUID svc = Some u ->
  Main.lastAutoUID m <> Some u ->
  NfcService.currentReader svc = Some rid ->
  Scenario.auth_success script ->
  e = VNull \/ e = VUndefined ->
  (exec Main.tick (script ++ [Rejected e]) m).2 = Returned tt /\
  (exec Main.tick (script ++ [Rejected e]) m).1.1
  = Main.set_sent
      (Main.sent m ++
       [Main.auto_status false VNull
          (VStr (message_or_string (nullish_read e "message")))])
      (Main.set_lastAutoUID None m).
Proof.
  intros (Hen & Hfree & Hwin & Hsvc & Hidle) Huid Hnew Hcur Hauth He.
  unfold Main.tick, Main.tryGetNfcService. cbn.
  rewrite Hen, Hfree, Hsvc. cbn. rewrite Huid.
  rewrite bool_decide_true by congruence.
  destruct m, svc; cbn in *; subst.
  destruct Hauth, He; subst; split; reflexivity.
Qed.


Lemma tick_nullish_rejection_witness :
  let m := Main.set_autoEnabled true Steady.tagged in
  Main.sent (exec Main.tick ([Resolved []] ++ [Rejected VUndefined]) m).1.1
  = [Main.auto_status false VNull
       (VStr "Cannot read properties of undefined (reading 'message')")].
Proof.
  cbv zeta.
  destruct (tick_nullish_rejection (Main.set_autoEnabled true Steady.tagged)
              (NfcService.applyEvent 0
                 (NfcService.CardInserted 0
                    (Some (NfcService.mkCard (Some "04A1B2C3"))))
                 Scenario.connected)
              0 "04A1B2C3" [Resolved []] VUndefined) as [_ H];
    [repeat split; reflexivity | reflexivity | discriminate | reflexivity
    | constructor | right; reflexivity | ].
  rewrite H. reflexivity.
Defined.

(** *** The eager entry point without a driver *)

Section EagerNoDriver.
Import Eager.
Variables (m : Eager.Mem) (e : JsVal).
Hypothesis Hnone : MainEager.nfcService (session m) = None.
Hypothesis Hthrows : MainEager.constructThrows (session m) = Some e.

Local Abbreviation attempted :=
  (set_session (MainEager.mk None (Some e) (S (MainEager.constructed (session m)))) m).

Lemma eager_read_fails :
  isBusy m = false ->
  run rfid_read m = (attempted, Returned (Main.failure_result e)).
Proof.
  intros Hfree. destruct m as [[svc con n] busy en loop uid win out].
  cbn in *. subst. reflexivity.
Qed.

Lemma eager_write_fails a b c :
  isBusy m = false ->
  run (rfid_write a b c) m = (attempted, Returned (Main.failure_result e)).
Proof.
  intros Hfree. destruct m as [[svc con n] busy en loop uid win out].
  cbn in *. subst. reflexivity.
Qed.

Lemma eager_status_throws : run rfid_status m = (attempted, Thrown e).
Proof.
  destruct m as [[svc con n] busy en loop uid win out].
  cbn in *. subst. reflexivity.
Qed.

Lemma eager_enable_throws enable :
  truthy enable = true ->
  run (rfid_auto enable) m
  = (set_autoLoop true (set_autoEnabled true attempted), Thrown e).
Proof.
  intros Hon. destruct m as [[svc con n] busy en loop uid win out].
  cbn in *. subst. unfold rfid_auto. cbn. rewrite Hon. cbn.
  destruct loop; reflexivity.
Qed.

Lemma eager_tick_notifies :
  autoEnabled m = true -> isBusy m = false -> mainWindow m = true ->
  e <> VNull -> e <> VUndefined ->
  run tick m
  = (set_sent (sent m ++ [Main.auto_status false VNull (VStr (message_or_string e))])
       (set_lastAutoUID None attempted),
     Returned tt).
Proof.
  intros Hen Hfree Hwin Hn Hu. destruct m as [[svc con n] busy en loop uid win out].
  cbn in *. subst.
  destruct e as [| |[]|[|[]]|[]|nm msg|t]; try congruence; reflexivity.
Qed.

End EagerNoDriver.

(** X23.  In the eager entry point a session that cannot be constructed is
    not mapped to [NFC_NOT_CONNECTED]: a manual read or write answers the
    failure object built from the constructor's own error, and the status
    request rejects with that error.  Every such request runs the
    constructor again. *)
Theorem eager_requests_without_driver (m : Eager.Mem) (e : JsVal) (a b c : JsVal) :
  MainEager.nfcService (Eager.session m) = None ->
  MainEager.constructThrows (Eager.session m) = Some e ->
  Eager.isBusy m = false ->
  let attempted :=
    Eager.set_session
      (MainEager.mk None (Some e) (S (MainEager.constructed (Eager.session m)))) m in
  run Eager.rfid_read m = (attempted, Returned (Main.failure_result e)) /\
  run (Eager.rfid_write a b c) m = (attempted, Returned (Main.failure_result e)) /\
  run Eager.rfid_status m = (attempted, Thrown e).
Proof.
  intros Hnone Hthrows Hfree attempted. subst attempted. split; [|split].
  - apply eager_read_fails; assumption.
  - apply eager_write_fails; assumption.
  - apply eager_status_throws; assumption.
Qed.

Lemma eager_requests_without_driver_witness :
  (run Eager.rfid_read
       (Eager.boot true (Some (VError "Error" "SCARD_E_NO_SERVICE")))).2
  = Returned [("success", VBool false); ("messageKey", VStr "unknownError");
              ("details", VStr "SCARD_E_NO_SERVICE")].
Proof.
  destruct (eager_requests_without_driver
              (Eager.boot true (Some (VError "Error" "SCARD_E_NO_SERVICE")))
              (VError "Error" "SCARD_E_NO_SERVICE") VNull VNull VNull
              eq_refl eq_refl eq_refl) as [H _].
  rewrite H. reflexivity.
Defined.

(** X24.  In the eager entry point, enabling auto-detect while the session
    cannot be constructed rejects with the constructor's error after the
    interval has been started: [autoEnabled] stays set, the interval keeps
    running and no notification is sent. *)
Theorem eager_enable_without_driver (m : Eager.Mem) (e enable : JsVal) :
  MainEager.nfcService (Eager.session m) = None ->
  MainEager.constructThrows (Eager.session m) = Some e ->
  truthy enable = true ->
  let after := (run (Eager.rfid_auto enable) m).1 in
  (run (Eager.rfid_auto enable) m).2 = Thrown e /\
  Eager.autoEnabled after = true /\
  Eager.autoLoop after = true /\
  Eager.sent after = Eager.sent m /\
  MainEager.constructed (Eager.session after)
  = S (MainEager.constructed (Eager.session m)).
Proof.
  intros Hnone Hthrows Hon. cbv zeta.
  rewrite (eager_enable_throws m e Hnone Hthrows enable Hon). repeat split.
Qed.

Lemma eager_enable_without_driver_witness :
  let m := Eager.boot true (Some (VError "Error" "no pcsc")) in
  (run (Eager.rfid_auto (VBool true)) m).2 = Thrown (VError "Error" "no pcsc") /\
  Eager.autoLoop (run (Eager.rfid_auto (VBool true)) m).1 = true.
Proof.
  cbv zeta.
  destruct (eager_enable_without_driver
              (Eager.boot true (Some (VError "Error" "no pcsc")))
              (VError "Error" "no pcsc") (VBool true) eq_refl eq_refl eq_refl)
    as (H1 & _ & H2 & _).
  split; assumption.
Defined.

Lemma replicate_snoc {A} (x : A) (n : nat) :
  replicate n x ++ [x] = x :: replicate n x.
Proof. induction n as [|n IH]; cbn; [reflexivity | rewrite IH; reflexivity]. Qed.

Lemma eager_ticks_state (e : JsVal) (n : nat) :
  e <> VNull -> e <> VUndefined ->
  forall m,
    MainEager.nfcService (Eager.session m) = None ->
    MainEager.constructThrows (Eager.session m) = Some e ->
    Eager.autoEnabled m = true -> Eager.isBusy m = false ->
    Eager.mainWindow m = true ->
    let after := Nat.iter n (fun m => (run Eager.tick m).1) m in
    Eager.sent after
    = Eager.sent m ++
      replicate n (Main.auto_status false VNull (VStr (message_or_string e))) /\
    MainEager.constructed (Eager.session after)
    = (n + MainEager.constructed (Eager.session m))%nat /\
    MainEager.nfcService (Eager.session after) = None /\
    MainEager.constructThrows (Eager.session after) = Some e /\
    Eager.autoEnabled after = true /\ Eager.isBusy after = false /\
    Eager.mainWindow after = true.
Proof.
  intros Hn Hu. induction n as [|n IH]; intros m Hnone Hthrows Hen Hfree Hwin.
  - cbn. rewrite app_nil_r. repeat split; assumption.
  - destruct (IH m Hnone Hthrows Hen Hfree Hwin)
      as (Hs & Hc & Hnone' & Ht' & Hen' & Hf' & Hw').
    cbv zeta in *. rewrite Nat.iter_succ.
    set (mid := Nat.iter n (fun m => (run Eager.tick m).1) m) in *.
    cbv beta.
    rewrite (eager_tick_notifies mid e Hnone' Ht' Hen' Hf' Hw' Hn Hu). cbn.
    rewrite Hs, Hc.
    split; [|repeat split; assumption].
    rewrite <- app_assoc. f_equal. apply replicate_snoc.
Qed.

(** X25.  In the eager entry point, while auto-detect is enabled and the
    session cannot be constructed, every tick runs the constructor again and
    sends one [{present:false, error}] notification: [n] ticks, [n] attempts
    and [n] notifications. *)
Theorem eager_tick_storm (m : Eager.Mem) (e : JsVal) (n : nat) :
  MainEager.nfcService (Eager.session m) = None ->
  MainEager.constructThrows (Eager.session m) = Some e ->
  Eager.autoEnabled m = true -> Eager.isBusy m = false ->
  Eager.mainWindow m = true ->
  e <> VNull -> e <> VUndefined ->
  let after := Nat.iter n (fun m => (run Eager.tick m).1) m in
  Eager.sent after
  = Eager.sent m ++
    replicate n (Main.auto_status false VNull (VStr (message_or_string e))) /\
  MainEager.constructed (Eager.session after)
  = (n + MainEager.constructed (Eager.session m))%nat.
Proof.
  intros Hnone Hthrows Hen Hfree Hwin Hn Hu.
  destruct (eager_ticks_state e n Hn Hu m Hnone Hthrows Hen Hfree Hwin)
    as (Hs & Hc & _).
  split; assumption.
Qed.

Lemma eager_tick_storm_witness :
  let m := (run (Eager.rfid_auto (VBool true))
                (Eager.boot true (Some (VError "Error" "no pcsc")))).1 in
  length (Eager.sent (Nat.iter 5 (fun m => (run Eager.tick m).1) m)) = 5%nat.
Proof.
  cbv zeta.
  destruct (eager_tick_storm
              (run (Eager.rfid_auto (VBool true))
                   (Eager.boot true (Some (VError "Error" "no pcsc")))).1
              (VError "Error" "no pcsc") 5 eq_refl eq_refl eq_refl eq_refl eq_refl)
    as [H _]; [discriminate | discriminate |].
  rewrite H. reflexivity.
Defined.
